(** * Skill fetcher: a shallow embedding of the fetch-and-merge pipeline

    The development follows the Python sources under [scripts/]:
    - [utils.py]                 -> Module [utils]
    - [marketplace_updater.py]   -> Module [marketplace_updater]
    - [skill_processor.py]       -> Module [skill_processor]
    - [github_fetcher.py]        -> Module [github_fetcher]
    - [fetch_external_skills.py] -> Module [fetch_external_skills]

    Python [str] values are modelled as [string] (a list of bytes, the UTF-8
    encoding): comparing two such strings byte by byte gives the same order
    as Python's code-point comparison.  Dictionaries that are only looked up
    are [gmap]s; the dictionary of [merge_plugins], whose values are listed
    in insertion order, is an association list.  Logging is not modelled. *)

From stdpp Require Import gmap strings list sorting pretty.
From Stdlib Require Import Ascii.
From Stdlib Require String.

(** ** Python built-ins used by the sources *)

Module py.

(** [sep.join(parts)] *)
Fixpoint join (sep : string) (parts : list string) : string :=
  match parts with
  | [] => ""
  | [p] => p
  | p :: rest => p +:+ sep +:+ join sep rest
  end.

(** [s.split(c)] for a one-character separator: the pieces between the
    separators, empty pieces included; never the empty list. *)
Fixpoint split (c : ascii) (s : string) : list string :=
  match s with
  | EmptyString => [""]
  | String a s' =>
      if Ascii.eqb a c then "" :: split c s'
      else match split c s' with
           | [] => [String a ""]
           | p :: ps => String a p :: ps
           end
  end.

(** [p in s] on strings: [p] occurs in [s] as a contiguous substring. *)
Fixpoint contains (p s : string) : bool :=
  String.prefix p s ||
  match s with
  | EmptyString => false
  | String _ s' => contains p s'
  end.

(** [s[n:]] *)
Fixpoint drop_chars (n : nat) (s : string) : string :=
  match n, s with
  | O, _ => s
  | S n', String _ s' => drop_chars n' s'
  | S _, EmptyString => ""
  end.

(** Truthiness of the result of [d.get(key)] when the values are strings:
    a missing key ([None]) and the empty string are falsy. *)
Definition truthy (v : option string) : bool :=
  match v with
  | Some (String _ _) => true
  | _ => false
  end.
#[global] Arguments truthy : simpl never.

(** [sorted(l, key=key)]: Python's sort is stable, and a stable sort is
    determined by the order on the keys; it is written here as the stable
    insertion sort. *)
Section sorted.
Context {A : Type} (key : A -> string).

Fixpoint insert_by (x : A) (l : list A) : list A :=
  match l with
  | [] => [x]
  | y :: r =>
      if String.leb (key x) (key y) then x :: y :: r else y :: insert_by x r
  end.

Definition sorted (l : list A) : list A := foldr insert_by [] l.
End sorted.

(** A dictionary keyed by strings that remembers insertion order. *)
Section dict.
Context {V : Type}.

Fixpoint dict_get (k : string) (d : list (string * V)) : option V :=
  match d with
  | [] => None
  | (k', v) :: r => if decide (k = k') then Some v else dict_get k r
  end.

(** [k in d] *)
Definition dict_contains (k : string) (d : list (string * V)) : bool :=
  bool_decide (is_Some (dict_get k d)).

(** [d[k] = v]: a present key keeps its position, a new key goes last. *)
Fixpoint dict_set (k : string) (v : V) (d : list (string * V))
  : list (string * V) :=
  match d with
  | [] => [(k, v)]
  | (k', v') :: r =>
      if decide (k = k') then (k, v) :: r else (k', v') :: dict_set k v r
  end.

(** [d.values()] *)
Definition dict_values (d : list (string * V)) : list V := d.*2.
End dict.

End py.

(** ** utils.py *)

Module utils.

Inductive exn :=
  | ValueError (msg : string)
  | IndexError.

Section parse_github_url.
(** [urlparse(url).path] of the standard library: the path component of
    the URL.  It is a parameter of the embedding. *)
Variable urlparse_path : string -> string.

(** [[p for p in parsed.path.split('/') if p]] *)
Definition path_parts (url : string) : list string :=
  filter (fun p => p ≠ "") (py.split "/" (urlparse_path url)).

Definition parse_github_url (url : string)
  : exn + (string * string * string * option string) :=
  let path_parts := path_parts url in
  if decide (length path_parts < 2)
  then inl (ValueError ("Invalid GitHub URL: " +:+ url))
  else
    match path_parts !! 0, path_parts !! 1 with
    | Some owner, Some repo =>
        let branch := "main" in
        let subfolder_path := None in
        if decide (3 < length path_parts ∧ path_parts !! 2 = Some "tree")
        then
          match path_parts !! 3 with
          | Some branch =>
              let subfolder_path :=
                if decide (4 < length path_parts)
                then Some (py.join "/" (drop 4 path_parts))
                else subfolder_path in
              inr (owner, repo, branch, subfolder_path)
          | None => inl IndexError
          end
        else inr (owner, repo, branch, subfolder_path)
    | _, _ => inl IndexError
    end.
End parse_github_url.

(** A stand-in for [urlparse(url).path], used for concrete examples only:
    on a URL of the shape [scheme://host/path], without parameters, query
    or fragment, it returns the part from the first [/] after the host. *)
Fixpoint after_scheme (s : string) : option string :=
  match s with
  | EmptyString => None
  | String _ s' =>
      if String.prefix "://" s then Some (py.drop_chars 3 s)
      else after_scheme s'
  end.

Fixpoint from_slash (s : string) : string :=
  match s with
  | EmptyString => ""
  | String a s' => if Ascii.eqb a "/" then s else from_slash s'
  end.

Definition simple_url_path (url : string) : string :=
  match after_scheme url with
  | Some rest => from_slash rest
  | None => url
  end.

(** *** to_kebab_case *)

(** The functions below work on the bytes of the text.  They agree with
    Python on ASCII text; [str.lower] also maps a few characters outside
    ASCII to ASCII letters, which is not modelled. *)
Fixpoint map_chars (f : ascii -> ascii) (s : string) : string :=
  match s with
  | EmptyString => ""
  | String a s' => String (f a) (map_chars f s')
  end.

Fixpoint keep_chars (keep : ascii -> bool) (s : string) : string :=
  match s with
  | EmptyString => ""
  | String a s' =>
      if keep a then String a (keep_chars keep s') else keep_chars keep s'
  end.

(** [c.lower()] *)
Definition lower_char (c : ascii) : ascii :=
  let n := nat_of_ascii c in
  if decide (65 <= n <= 90) then ascii_of_nat (n + 32) else c.

(** [.replace(' ', '-').replace('_', '-')] on one character *)
Definition hyphenate_char (c : ascii) : ascii :=
  if decide (c = " "%char) then "-"%char
  else if decide (c = "_"%char) then "-"%char
  else c.

(** The character class [[a-z0-9-]] *)
Definition kebab_char (c : ascii) : bool :=
  let n := nat_of_ascii c in
  bool_decide (97 <= n <= 122) || bool_decide (48 <= n <= 57)
  || bool_decide (c = "-"%char).

(** [re.sub(r'-+', '-', name)] *)
Fixpoint collapse_hyphens (s : string) : string :=
  match s with
  | EmptyString => ""
  | String a s' =>
      let r := collapse_hyphens s' in
      if decide (a = "-"%char)
      then match r with
           | String b _ => if decide (b = "-"%char) then r else String a r
           | EmptyString => String a ""
           end
      else String a r
  end.

(** [name.strip('-')], in two halves *)
Fixpoint lstrip_hyphens (s : string) : string :=
  match s with
  | EmptyString => ""
  | String a s' => if decide (a = "-"%char) then lstrip_hyphens s' else s
  end.

Fixpoint rstrip_hyphens (s : string) : string :=
  match s with
  | EmptyString => ""
  | String a s' =>
      match rstrip_hyphens s' with
      | EmptyString => if decide (a = "-"%char) then "" else String a ""
      | r => String a r
      end
  end.

Definition to_kebab_case (name : string) : string :=
  let name := map_chars lower_char name in
  let name := map_chars hyphenate_char name in
  let name := keep_chars kebab_char name in
  let name := collapse_hyphens name in
  rstrip_hyphens (lstrip_hyphens name).

End utils.

(** ** skill_processor.py *)

Module skill_processor.

(** What the validator can observe at a path: nothing, something that is not
    a directory, or a directory together with the text of its [SKILL.md]
    when that file exists. *)
Inductive fs_entry :=
  | NotADirectory
  | Directory (skill_md : option string).

#[global] Instance fs_entry_eq_dec : EqDecision fs_entry.
Proof. solve_decision. Defined.

(** The dictionary returned by [validate_skill]. *)
Record validation := Validation {
  valid : bool;
  errors : list string;
  warnings : list string;
  metadata : option (gmap string string)
}.

(** A skill of the configuration file.  [id], [target_folder], [github_url]
    and [repo_type] are read with [skill_config['...']]; the others with
    [.get], so they may be absent. *)
Record skill_config := SkillConfig {
  id : string;
  target_folder : string;
  github_url : string;
  repo_type : string;
  exclude_patterns : option (list string);
  description : option string;
  category : option string
}.

#[global] Instance skill_config_eq_dec : EqDecision skill_config.
Proof. solve_decision. Defined.

(** The dictionary built by [normalize_skill_metadata]. *)
Record normalized := Normalized {
  meta_name : string;
  meta_description : string;
  meta_category : string
}.

Section frontmatter.
(** [frontmatter.load] of the python-frontmatter library, applied to the
    text of the file; [None] when opening, decoding or parsing raises. *)
Variable frontmatter_load : string -> option (gmap string string).

Definition parse_skill_frontmatter (skill_md : string) : gmap string string :=
  match frontmatter_load skill_md with
  | Some post_metadata => post_metadata
  | None => ∅
  end.

(** [result] starts as [Validation false [] [] None]; the function returns
    it after the updates made on the path taken. *)
Definition validate_skill (skill_path : string) (skill_dir : option fs_entry)
  : validation :=
  match skill_dir with
  | None =>
      Validation false ["Directory does not exist: " +:+ skill_path] [] None
  | Some NotADirectory =>
      Validation false ["Path is not a directory: " +:+ skill_path] [] None
  | Some (Directory None) =>
      Validation false ["SKILL.md not found in " +:+ skill_path] [] None
  | Some (Directory (Some skill_md)) =>
      let metadata := parse_skill_frontmatter skill_md in
      let warnings :=
        (if py.truthy (metadata !! "name") then []
         else ["Missing 'name' in frontmatter"]) ++
        (if py.truthy (metadata !! "description") then []
         else ["Missing 'description' in frontmatter"]) in
      let file_size := String.length skill_md in
      if decide (file_size = 0)
      then Validation false ["SKILL.md is empty"] warnings (Some metadata)
      else
        let warnings :=
          if decide (file_size < 50)
          then warnings ++
               ["SKILL.md is very small (" +:+ pretty file_size +:+ " bytes)"]
          else warnings in
        Validation true [] warnings (Some metadata)
  end.
End frontmatter.

(** The frontmatter dictionary is truthy when it is not empty. *)
Definition normalize_skill_metadata (skill_config : skill_config)
    (parsed_metadata : option (gmap string string)) : normalized :=
  let description :=
    match parsed_metadata with
    | Some parsed =>
        if decide (parsed = ∅) then default "" (description skill_config)
        else if py.truthy (parsed !! "description")
             then default "" (parsed !! "description")
             else default "" (description skill_config)
    | None => default "" (description skill_config)
    end in
  Normalized (id skill_config) description
                (default "" (category skill_config)).

(** The directories below the base directory, by folder name. *)
Definition check_name_conflicts (target_name : string)
    (base_dir : gmap string fs_entry) : option string :=
  match base_dir !! target_name with
  | Some _ => Some target_name
  | None => None
  end.

(** A directory of the base directory counts as a skill when its name does
    not start with a dot and it holds a [SKILL.md]. *)
Definition is_skill_dir (name : string) (entry : fs_entry) : bool :=
  match entry with
  | Directory (Some _) => negb (String.prefix "." name)
  | _ => false
  end.

(** [get_existing_skills]; [base_dir] is [None] when the base directory
    does not exist.  The order of [iterdir] is left to the file system;
    [map_to_list] stands for it. *)
Definition get_existing_skills (base_dir : option (gmap string fs_entry))
  : list string :=
  match base_dir with
  | None => []
  | Some dir =>
      (filter (fun item => is_skill_dir item.1 item.2 = true)
              (map_to_list dir)).*1
  end.

Section validate_all.
Variable frontmatter_load : string -> option (gmap string string).

(** [validate_all_skills]: the results by skill name. *)
Definition validate_all_skills (skills_dir : string)
    (base_dir : option (gmap string fs_entry))
    (skill_names : option (list string)) : gmap string validation :=
  let skill_names := default (get_existing_skills base_dir) skill_names in
  foldl (fun results skill_name =>
           <[skill_name :=
               validate_skill frontmatter_load
                 (skills_dir +:+ "/" +:+ skill_name)
                 (base_dir ≫= (.!! skill_name))]> results)
        ∅ skill_names.
End validate_all.

End skill_processor.

(** ** marketplace_updater.py *)

Module marketplace_updater.

(** A registry entry, a JSON object with string fields; [None] is a key
    that is absent from the object. *)
Record plugin := Plugin {
  plugin_name : option string;
  plugin_description : option string;
  plugin_source : option string;
  plugin_category : option string
}.

#[global] Instance plugin_eq_dec : EqDecision plugin.
Proof. solve_decision. Defined.

(** First loop of [merge_plugins]: every existing plugin with a truthy name
    is stored under its name, a later one overwriting an earlier one. *)
Fixpoint add_existing (existing_plugins : list plugin)
    (plugins_dict : list (string * plugin)) : list (string * plugin) :=
  match existing_plugins with
  | [] => plugins_dict
  | plugin :: rest =>
      match plugin_name plugin with
      | Some name =>
          if py.truthy (Some name)
          then add_existing rest (py.dict_set name plugin plugins_dict)
          else add_existing rest plugins_dict
      | None => add_existing rest plugins_dict
      end
  end.

(** Second loop: a new plugin with a truthy name is stored only when its
    name is not a key yet. *)
Fixpoint add_new (new_plugins : list plugin)
    (plugins_dict : list (string * plugin)) : list (string * plugin) :=
  match new_plugins with
  | [] => plugins_dict
  | plugin :: rest =>
      match plugin_name plugin with
      | Some name =>
          if py.truthy (Some name)
          then if py.dict_contains name plugins_dict
               then add_new rest plugins_dict
               else add_new rest (py.dict_set name plugin plugins_dict)
          else add_new rest plugins_dict
      | None => add_new rest plugins_dict
      end
  end.

(** [lambda p: p.get('name', '')] *)
Definition name_key (p : plugin) : string := default "" (plugin_name p).

Definition merge_plugins (existing_plugins new_plugins : list plugin)
  : list plugin :=
  let plugins_dict := add_existing existing_plugins [] in
  let plugins_dict := add_new new_plugins plugins_dict in
  py.sorted name_key (py.dict_values plugins_dict).

(** The registry document, a JSON object; [None] is an absent key.  [owner]
    holds its [name] and [email]. *)
Record marketplace := Marketplace {
  mp_name : option string;
  mp_version : option string;
  mp_description : option string;
  mp_owner : option (option string * option string);
  mp_plugins : option (list plugin)
}.

#[global] Instance marketplace_eq_dec : EqDecision marketplace.
Proof. solve_decision. Defined.

(** The registry file and its [.backup] sibling; [None] is a file that is
    missing or does not hold JSON. *)
Record registry_files := RegistryFiles {
  marketplace_json : option marketplace;
  marketplace_backup : option marketplace
}.

Definition plugin_has_required (p : plugin) : bool :=
  bool_decide (is_Some (plugin_name p)) &&
  bool_decide (is_Some (plugin_description p)) &&
  bool_decide (is_Some (plugin_source p)) &&
  bool_decide (is_Some (plugin_category p)).

(** [MARKETPLACE_SCHEMA]: the required keys; the field types are those of
    the records. *)
Definition validate_marketplace_schema (data : marketplace) : bool :=
  bool_decide (is_Some (mp_name data)) &&
  bool_decide (is_Some (mp_version data)) &&
  bool_decide (is_Some (mp_description data)) &&
  match mp_owner data with
  | Some (Some _, Some _) => true
  | _ => false
  end &&
  match mp_plugins data with
  | Some plugins => forallb plugin_has_required plugins
  | None => false
  end.

Definition load_marketplace (files : registry_files) : option marketplace :=
  marketplace_json files.

(** [save_marketplace] with [create_backup=True]: the previous file is
    copied to the backup, then the document is written. *)
Definition save_marketplace (files : registry_files) (data : marketplace)
  : registry_files :=
  let backup :=
    match marketplace_json files with
    | Some previous => Some previous
    | None => marketplace_backup files
    end in
  RegistryFiles (Some data) backup.

Import skill_processor.

Definition create_marketplace_entry (skill_config : skill_config)
    (metadata : option normalized) : plugin :=
  let entry_description :=
    match metadata with
    | Some metadata =>
        if py.truthy (Some (meta_description metadata))
        then meta_description metadata
        else default "" (description skill_config)
    | None => default "" (description skill_config)
    end in
  Plugin (Some (id skill_config))
         (Some entry_description)
         (Some ("./" +:+ target_folder skill_config))
         (Some (default "development" (category skill_config))).

(** A document without any key is falsy. *)
Definition marketplace_is_empty (m : marketplace) : bool :=
  bool_decide (m = Marketplace None None None None None).

Definition update_marketplace_with_skills (files : registry_files)
    (skill_configs : list skill_config)
    (skill_metadata : gmap string normalized) : registry_files * bool :=
  match load_marketplace files with
  | None => (files, false)
  | Some marketplace =>
      if marketplace_is_empty marketplace then (files, false)
      else
        let existing_plugins := default [] (mp_plugins marketplace) in
        let new_plugins :=
          (fun skill_config =>
             create_marketplace_entry skill_config
               (skill_metadata !! id skill_config)) <$> skill_configs in
        let merged_plugins := merge_plugins existing_plugins new_plugins in
        let marketplace :=
          Marketplace (mp_name marketplace) (mp_version marketplace)
                      (mp_description marketplace) (mp_owner marketplace)
                      (Some merged_plugins) in
        if validate_marketplace_schema marketplace
        then (save_marketplace files marketplace, true)
        else (files, false)
  end.

(** The loop of [get_plugin_by_name]: the first plugin whose name equals
    the name asked for. *)
Fixpoint find_by_name (name : string) (plugins : list plugin)
  : option plugin :=
  match plugins with
  | [] => None
  | plugin :: rest =>
      if decide (plugin_name plugin = Some name) then Some plugin
      else find_by_name name rest
  end.

Definition get_plugin_by_name (files : registry_files) (name : string)
  : option plugin :=
  match load_marketplace files with
  | None => None
  | Some marketplace =>
      if marketplace_is_empty marketplace then None
      else find_by_name name (default [] (mp_plugins marketplace))
  end.

(** [[p.get('name') for p in plugins if p.get('name')]] *)
Definition list_marketplace_plugins (files : registry_files) : list string :=
  match load_marketplace files with
  | None => []
  | Some marketplace =>
      if marketplace_is_empty marketplace then []
      else omap (fun p => if py.truthy (plugin_name p)
                          then plugin_name p else None)
                (default [] (mp_plugins marketplace))
  end.

End marketplace_updater.

(** ** github_fetcher.py *)

Module github_fetcher.

(** What the fetcher does to the outside world, in order.
    [WaitForRateLimitReset] is a call of [wait_for_rate_limit_reset] (the
    throttle); [SessionGet] is a request with [self.session.get] that
    counts against the quota. *)
Inductive event :=
  | WaitForRateLimitReset
  | SessionGet (url : string)
  | Mkdir (path : string)
  | WriteBytes (path : string) (content : string)
  | TarExtract (member target_path : string).

#[global] Instance event_eq_dec : EqDecision event.
Proof. solve_decision. Defined.

Definition api_base : string := "https://api.github.com".

(** The [rate] object of the rate-limit endpoint; a key may be absent. *)
Record rate_limit := RateLimit {
  remaining : option Z;
  reset : option Z
}.

(** [wait_for_rate_limit_reset]: the seconds that the call sleeps, [None]
    when it returns at once.  [rate] is the result of [check_rate_limit],
    [None] when that is the empty dictionary (also after a failed request);
    [now] is [time.time()], in whole seconds. *)
Definition wait_for_rate_limit_reset (rate : option rate_limit) (now : Z)
  : option Z :=
  match rate with
  | None => None
  | Some rate =>
      let remaining := default 100%Z (remaining rate) in
      let reset_time := default 0%Z (reset rate) in
      if decide (remaining < 10)%Z
      then Some (Z.max 0 (reset_time - now) + 5)%Z
      else None
  end.

(** [Path(a) / b] *)
Definition path_join (a b : string) : string := a +:+ "/" +:+ b.

(** *** Whole-repository strategy *)

Definition default_exclude_patterns : list string :=
  [".git"; ".github"; "__pycache__"; "*.pyc"].

(** The loop over [exclude_patterns], with its [break]. *)
Fixpoint should_exclude (exclude_patterns : list string) (member_name : string)
  : bool :=
  match exclude_patterns with
  | [] => false
  | pattern :: rest =>
      if py.contains pattern member_name then true
      else should_exclude rest member_name
  end.

(** The loop over the members of the archive. *)
Fixpoint extract_members (root_dir target_path : string)
    (exclude_patterns : list string) (members : list string) : list event :=
  match members with
  | [] => []
  | member_name :: rest =>
      if decide (member_name = root_dir)
      then extract_members root_dir target_path exclude_patterns rest
      else if should_exclude exclude_patterns member_name
      then extract_members root_dir target_path exclude_patterns rest
      else
        let member_name :=
          py.drop_chars (String.length root_dir + 1) member_name in
        if decide (member_name = "")
        then extract_members root_dir target_path exclude_patterns rest
        else TarExtract member_name target_path ::
             extract_members root_dir target_path exclude_patterns rest
  end.

(** The answer to the archive request: the request raises, the body is not
    a readable archive, or the archive lists its member names. *)
Inductive tarball :=
  | DownloadFails
  | NotAnArchive
  | Archive (members : list string).

Definition fetch_standalone_repo (owner repo branch target_dir : string)
    (exclude_patterns : option (list string)) (response : tarball)
  : list event * bool :=
  let exclude_patterns := default default_exclude_patterns exclude_patterns in
  let tarball_url :=
    "https://github.com/" +:+ owner +:+ "/" +:+ repo +:+
    "/archive/refs/heads/" +:+ branch +:+ ".tar.gz" in
  match response with
  | DownloadFails => ([WaitForRateLimitReset; SessionGet tarball_url], false)
  | NotAnArchive =>
      ([WaitForRateLimitReset; SessionGet tarball_url; Mkdir target_dir],
       false)
  | Archive members =>
      match members with
      | [] =>
          ([WaitForRateLimitReset; SessionGet tarball_url; Mkdir target_dir],
           false)
      | first :: _ =>
          let root_dir := default "" (head (py.split "/" first)) in
          ([WaitForRateLimitReset; SessionGet tarball_url; Mkdir target_dir] ++
           extract_members root_dir target_dir exclude_patterns members,
           true)
      end
  end.

(** *** Subpath strategy *)

(** The answers of the remote host along a traversal.  A listing request
    raises or yields items; a file item carries the answer to its download
    request ([None] when it raises); a directory item carries the answer to
    the listing request for it.  A JSON answer that is a single object is
    the listing with that one item. *)
Inductive listing :=
  | ListingFails
  | Listing (contents : list item)
with item :=
  | File (name download_url : string) (response : option string)
  | Dir (name : string) (sub : listing)
  | Other (name type : string).

Section recursive.
Variables owner repo branch : string.

Definition contents_url (path : string) : string :=
  api_base +:+ "/repos/" +:+ owner +:+ "/" +:+ repo +:+ "/contents/" +:+
  path +:+ "?ref=" +:+ branch.

(** [_fetch_contents_recursive].  An exception anywhere in the body ends
    the call with [False]; the value of the recursive call is not used. *)
Fixpoint fetch_contents_recursive (path target_dir : string)
    (remote : listing) {struct remote} : list event * bool :=
  match remote with
  | ListingFails => ([SessionGet (contents_url path)], false)
  | Listing contents =>
      let fix loop (items : list item) : list event * bool :=
        match items with
        | [] => ([], true)
        | File item_name download_url response :: rest =>
            let item_path := path_join target_dir item_name in
            match response with
            | None =>
                ([WaitForRateLimitReset; SessionGet download_url], false)
            | Some content =>
                let '(evs, ok) := loop rest in
                (WaitForRateLimitReset :: SessionGet download_url ::
                 WriteBytes item_path content :: evs, ok)
            end
        | Dir item_name sub :: rest =>
            let item_path := path_join target_dir item_name in
            let subpath := path +:+ "/" +:+ item_name in
            let '(sub_evs, _) :=
              fetch_contents_recursive subpath item_path sub in
            let '(evs, ok) := loop rest in
            (Mkdir item_path :: sub_evs ++ evs, ok)
        | Other _ _ :: rest => loop rest
        end in
      let '(evs, ok) := loop contents in
      (SessionGet (contents_url path) :: evs, ok)
  end.

Definition fetch_subfolder (subfolder_path target_dir : string)
    (remote : listing) : list event * bool :=
  let '(evs, ok) :=
    fetch_contents_recursive subfolder_path target_dir remote in
  (WaitForRateLimitReset :: Mkdir target_dir :: evs, ok).
End recursive.

(** *** Choice of the strategy *)

(** What one repository answers: its default branch ([None] when the
    metadata request raises), its archive per branch, and its listings per
    branch and path. *)
Record remote := Remote {
  default_branch : option string;
  archive : string -> tarball;
  contents : string -> string -> listing
}.

Definition get_default_branch (owner repo : string) (r : remote)
  : list event * string :=
  ([SessionGet (api_base +:+ "/repos/" +:+ owner +:+ "/" +:+ repo)],
   default "main" (default_branch r)).

Section fetch_skill.
Variable urlparse_path : string -> string.

(** [GitHubFetcher.fetch_skill]; [extraction_config] holds the value of the
    key [exclude_patterns] when the configuration has it. *)
Definition fetch_skill (github_url repo_type target_folder : string)
    (extraction_config : option (list string)) (r : remote)
  : list event * bool :=
  match utils.parse_github_url urlparse_path github_url with
  | inl _ => ([], false)
  | inr (owner, repo, branch, subfolder_path) =>
      let '(branch_evs, branch) :=
        if negb (py.truthy subfolder_path)
        then get_default_branch owner repo r
        else ([], branch) in
      if bool_decide (repo_type = "standalone")
         || negb (py.truthy subfolder_path)
      then
        let exclude_patterns :=
          default default_exclude_patterns extraction_config in
        let '(evs, ok) :=
          fetch_standalone_repo owner repo branch target_folder
                                (Some exclude_patterns) (archive r branch) in
        (branch_evs ++ evs, ok)
      else
        let '(evs, ok) :=
          fetch_subfolder owner repo branch (default "" subfolder_path)
                          target_folder
                          (contents r branch (default "" subfolder_path)) in
        (branch_evs ++ evs, ok)
  end.
End fetch_skill.

End github_fetcher.

(** ** fetch_external_skills.py *)

Module fetch_external_skills.
Import skill_processor marketplace_updater.

(** [self.stats] *)
Record stats := Stats {
  total : nat;
  successful : nat;
  failed : nat;
  skipped : nat;
  stat_errors : list string
}.

(** The configuration file. *)
Record config := Config {
  output_directory : option string;
  skills : list skill_config
}.

(** What a run reads and changes: the folders below the output directory
    (by name), the counters, and the registry files. *)
Record state := State {
  base_dir : gmap string fs_entry;
  run_stats : stats;
  registry : registry_files
}.

Definition initial_stats : stats := Stats 0 0 0 0 [].

(** The result of [self.fetcher.fetch_skill] on a fresh temporary
    directory: failure, or success with the [SKILL.md] text that the
    directory then holds, if it holds one. *)
Inductive fetch_outcome :=
  | FetchFailed
  | Fetched (skill_md : option string).

Section skill_fetcher.
Variable frontmatter_load : string -> option (gmap string string).
(** The remote side, per skill. *)
Variable github : skill_config -> fetch_outcome.
(** [tempfile.mkdtemp(prefix=...)]: the name of the new directory. *)
Variable mkdtemp : string -> string.
(** [self.force] and [self.dry_run] *)
Variables force dry_run : bool.

Definition target_exists (st : state) (skill_config : skill_config) : bool :=
  bool_decide (is_Some (base_dir st !! target_folder skill_config)).

(** The [except] branch of [fetch_skill]. *)
Definition record_failure (st : state) (skill_id e : string) : state * bool :=
  let error_msg := "Failed to fetch " +:+ skill_id +:+ ": " +:+ e in
  let s := run_stats st in
  (State (base_dir st)
         (Stats (total s) (successful s) (S (failed s)) (skipped s)
                (stat_errors s ++ [error_msg]))
         (registry st),
   false).

(** [SkillFetcher.fetch_skill].  The temporary directory is gone when the
    function returns, on every path. *)
Definition fetch_skill (skill_config : skill_config) (st : state)
  : state * bool :=
  let skill_id := id skill_config in
  let s := run_stats st in
  if target_exists st skill_config && negb force
  then (State (base_dir st)
              (Stats (total s) (successful s) (failed s) (S (skipped s))
                     (stat_errors s))
              (registry st),
        true)
  else if dry_run then (st, true)
  else
    let temp_dir := mkdtemp ("skill_fetch_" +:+ skill_id +:+ "_") in
    match github skill_config with
    | FetchFailed => record_failure st skill_id "GitHub fetch failed"
    | Fetched skill_md =>
        let validation :=
          validate_skill frontmatter_load temp_dir
                         (Some (Directory skill_md)) in
        if negb (valid validation)
        then record_failure st skill_id
               ("Validation failed: " +:+ py.join ", " (errors validation))
        else
          (State (<[target_folder skill_config := Directory skill_md]>
                    (base_dir st))
                 (Stats (total s) (S (successful s)) (failed s) (skipped s)
                        (stat_errors s))
                 (registry st),
           true)
    end.

Definition target_path (st_dir : option string) (target_folder : string)
  : string :=
  default "." st_dir +:+ "/" +:+ target_folder.

(** The loop of [fetch_all_skills]. *)
Fixpoint fetch_each (out_dir : option string) (skills : list skill_config)
    (st : state) (skill_metadata : gmap string normalized)
  : state * gmap string normalized :=
  match skills with
  | [] => (st, skill_metadata)
  | skill_config :: rest =>
      let '(st, success) := fetch_skill skill_config st in
      let skill_metadata :=
        if success
        then
          match base_dir st !! target_folder skill_config with
          | Some entry =>
              let validation :=
                validate_skill frontmatter_load
                  (target_path out_dir (target_folder skill_config))
                  (Some entry) in
              if valid validation
              then <[id skill_config :=
                       normalize_skill_metadata skill_config
                         (metadata validation)]> skill_metadata
              else skill_metadata
          | None => skill_metadata
          end
        else skill_metadata in
      fetch_each out_dir rest st skill_metadata
  end.

Definition fetch_all_skills (out_dir : option string)
    (skills : list skill_config) (st : state)
  : state * gmap string normalized :=
  let s := run_stats st in
  let st :=
    State (base_dir st)
          (Stats (length skills) (successful s) (failed s) (skipped s)
                 (stat_errors s))
          (registry st) in
  fetch_each out_dir skills st ∅.

Fixpoint check_conflicts (st : state) (skills : list skill_config)
  : list string :=
  match skills with
  | [] => []
  | skill :: rest =>
      let target_folder := target_folder skill in
      match check_name_conflicts target_folder (base_dir st) with
      | Some _ =>
          if negb force then target_folder :: check_conflicts st rest
          else check_conflicts st rest
      | None => check_conflicts st rest
      end
  end.

Definition update_marketplace (config : config) (st : state)
    (skill_metadata : gmap string normalized) : state * bool :=
  if dry_run then (st, true)
  else
    match marketplace_json (registry st) with
    | None => (st, false)
    | Some _ =>
        let successful_skills :=
          filter (fun skill => is_Some (skill_metadata !! id skill))
                 (skills config) in
        let '(files, success) :=
          update_marketplace_with_skills (registry st) successful_skills
                                         skill_metadata in
        (State (base_dir st) (run_stats st) files, success)
    end.

(** [SkillFetcher.run]: [config_file] is [None] when loading the
    configuration fails, [environment_ok] is the result of
    [validate_environment]; the result is the exit code. *)
Definition run (config_file : option config) (environment_ok : bool)
    (skill_ids : option (list string)) (st : state) : state * nat :=
  match config_file with
  | None => (st, 1)
  | Some config =>
      if negb environment_ok then (st, 1)
      else
        let all_skills := skills config in
        let selected :=
          match skill_ids with
          | Some ((_ :: _) as ids) =>
              Some (filter (fun s => id s ∈ ids) all_skills)
          | _ => None
          end in
        match selected with
        | Some [] => (st, 1)
        | _ =>
            let skills_to_fetch := default all_skills selected in
            let conflicts := check_conflicts st skills_to_fetch in
            if bool_decide (conflicts ≠ []) && negb force then (st, 1)
            else
              let '(st, skill_metadata) :=
                fetch_all_skills (output_directory config)
                                 skills_to_fetch st in
              let st :=
                if bool_decide (skill_metadata ≠ ∅) && negb dry_run
                then (update_marketplace config st skill_metadata).1
                else st in
              (st, if decide (failed (run_stats st) = 0) then 0 else 1)
        end
  end.
End skill_fetcher.

End fetch_external_skills.

(** * Vocabulary of the statements *)

(** The order of Python on strings, [s <= t] and [s < t]. *)
Definition str_le (s t : string) : Prop := String.leb s t = true.
Definition str_lt (s t : string) : Prop := String.ltb s t = true.

(** The same on the sort keys of two elements. *)
Definition key_le {A : Type} (key : A -> string) (x y : A) : Prop :=
  str_le (key x) (key y).
Definition key_lt {A : Type} (key : A -> string) (x y : A) : Prop :=
  str_lt (key x) (key y).

(** The last entry of a list that is named [n], and the first one. *)
Fixpoint last_named (n : string) (l : list marketplace_updater.plugin)
  : option marketplace_updater.plugin :=
  match l with
  | [] => None
  | p :: r =>
      match last_named n r with
      | Some q => Some q
      | None =>
          if decide (marketplace_updater.plugin_name p = Some n)
          then Some p else None
      end
  end.

Fixpoint first_named (n : string) (l : list marketplace_updater.plugin)
  : option marketplace_updater.plugin :=
  match l with
  | [] => None
  | p :: r =>
      if decide (marketplace_updater.plugin_name p = Some n)
      then Some p else first_named n r
  end.

(** Existing wins: the entry that a merge keeps under the name [n]. *)
Definition merge_lookup (n : string)
    (existing new : list marketplace_updater.plugin)
  : option marketplace_updater.plugin :=
  match last_named n existing with
  | Some e => Some e
  | None => first_named n new
  end.

(** The invariant of [plugins_dict]: the keys are pairwise different, and
    each value is stored under its own, non-empty, name. *)
Definition dict_wf (d : list (string * marketplace_updater.plugin)) : Prop :=
  NoDup d.*1 /\
  Forall (fun kv => marketplace_updater.plugin_name kv.2 = Some kv.1 /\
                    kv.1 ≠ "") d.

(** Every request that counts against the quota comes after a throttle call
    with no other such request in between: [armed] tells whether a throttle
    call has been made since the last request. *)
Fixpoint throttled_from (armed : bool) (trace : list github_fetcher.event) : bool :=
  match trace with
  | [] => true
  | github_fetcher.WaitForRateLimitReset :: rest => throttled_from true rest
  | github_fetcher.SessionGet _ :: rest => armed && throttled_from false rest
  | _ :: rest => throttled_from armed rest
  end.

Definition throttled (trace : list github_fetcher.event) : bool := throttled_from false trace.

(** The value that the subpath traversal returns depends on the first level
    only: the listing request succeeded and no file of that listing failed
    to download. *)
Definition item_downloads (it : github_fetcher.item) : bool :=
  match it with
  | github_fetcher.File _ _ None => false
  | _ => true
  end.

Definition first_level_ok (remote : github_fetcher.listing) : bool :=
  match remote with
  | github_fetcher.ListingFails => false
  | github_fetcher.Listing contents => forallb item_downloads contents
  end.

(** A listing without subdirectories. *)
Definition is_flat (contents : list github_fetcher.item) : bool :=
  forallb (fun it => match it with github_fetcher.Dir _ _ => false | _ => true end)
          contents.

(** A stand-in for [frontmatter.load], used for concrete examples only: it
    raises on every text that opens a header block and finds no header in
    any other text. *)
Definition reject_headers (text : string) : option (gmap string string) :=
  if String.prefix "---" text then None else Some ∅.

(** The entries that [update_marketplace_with_skills] builds from the
    configurations and the batch. *)
Definition new_entries (configs : list skill_processor.skill_config)
    (batch : gmap string skill_processor.normalized)
  : list marketplace_updater.plugin :=
  (fun c => marketplace_updater.create_marketplace_entry c
              (batch !! skill_processor.id c)) <$> configs.

(** Every character of a string satisfies a test. *)
Fixpoint all_chars (p : ascii -> bool) (s : string) : bool :=
  match s with
  | EmptyString => true
  | String a s' => p a && all_chars p s'
  end.

(** The text is ASCII. *)
Definition is_ascii (s : string) : bool :=
  all_chars (fun c => bool_decide (nat_of_ascii c < 128)) s.

Definition first_char (s : string) : option ascii :=
  match s with
  | EmptyString => None
  | String a _ => Some a
  end.

Fixpoint last_char (s : string) : option ascii :=
  match s with
  | EmptyString => None
  | String a EmptyString => Some a
  | String _ s' => last_char s'
  end.

(** No two hyphens in a row. *)
Fixpoint no_double_hyphen (s : string) : bool :=
  match s with
  | EmptyString => true
  | String a s' =>
      negb (bool_decide (a = "-"%char) &&
            bool_decide (first_char s' = Some "-"%char))
      && no_double_hyphen s'
  end.

(** Kebab case: lower-case letters, digits and single hyphens, with no
    hyphen at either end. *)
Definition is_kebab (s : string) : bool :=
  all_chars utils.kebab_char s && no_double_hyphen s
  && negb (bool_decide (first_char s = Some "-"%char))
  && negb (bool_decide (last_char s = Some "-"%char)).

(** The text holds no slash. *)
Definition slash_free (s : string) : bool :=
  all_chars (fun a => negb (Ascii.eqb a "/")) s.

(** * Sample inputs *)

Module samples.
Import skill_processor marketplace_updater fetch_external_skills.

Definition nameless : plugin :=
  Plugin (Some "") (Some "An entry without a name") (Some "./nameless")
         (Some "development").

Definition pdf_old : plugin :=
  Plugin (Some "pdf-tools") (Some "First description") (Some "./pdf-tools")
         (Some "documents").

Definition pdf_new : plugin :=
  Plugin (Some "pdf-tools") (Some "Second description") (Some "./pdf-tools")
         (Some "documents").

Definition pdf_incoming : plugin :=
  Plugin (Some "pdf-tools") (Some "Fetched description") (Some "./pdf-tools")
         (Some "development").

Definition url_with_subpath : string :=
  "https://github.com/obra/superpowers/tree/main/skills/brainstorming".

Definition url_ending_in_tree : string :=
  "https://github.com/obra/superpowers/tree".

Definition manifest : string :=
  "--- name: brainstorming description: Structured idea generation --- # Brainstorming".

Definition broken_manifest : string :=
  "--- name: [brainstorming description: unclosed --- # Brainstorming".

(** A stand-in for [frontmatter.load] that finds the same two keys in every
    text that opens a header block. *)
Definition load (text : string) : option (gmap string string) :=
  if String.prefix "---" text
  then Some {[ "name" := "brainstorming";
               "description" := "Structured idea generation" ]}
  else Some ∅.

Definition skill_a : skill_config :=
  SkillConfig "epub" "epub-skill"
              "https://github.com/smerchek/claude-epub-skill" "standalone"
              None (Some "EPUB converter") (Some "documents").

Definition skill_b : skill_config :=
  SkillConfig "brainstorming" "brainstorming" url_with_subpath "multi_skill"
              None (Some "Brainstorming") None.

(** Every fetch succeeds and delivers [manifest]. *)
Definition github (_ : skill_config) : fetch_outcome :=
  Fetched (Some manifest).

Definition mkdtemp (prefix : string) : string := "/tmp/" +:+ prefix +:+ "0".

Definition registry_doc : marketplace :=
  Marketplace (Some "skills") (Some "1.0.0") (Some "A registry")
              (Some (Some "owner", Some "owner@example.org")) (Some []).

(** The folder of [skill_a] exists, the folder of [skill_b] does not. *)
Definition state_with_a : state :=
  State {[ "epub-skill" := Directory (Some manifest) ]} initial_stats
        (RegistryFiles (Some registry_doc) None).

End samples.

(** * Further sample inputs *)

Module more_samples.
Import skill_processor marketplace_updater fetch_external_skills.
Import github_fetcher.

Definition doc_with_pdf : marketplace :=
  Marketplace (Some "skills") (Some "1.0.0") (Some "A registry")
              (Some (Some "owner", Some "owner@example.org"))
              (Some [samples.pdf_old]).

Definition files_with_pdf : registry_files :=
  RegistryFiles (Some doc_with_pdf) None.

Definition batch_with_epub : gmap string normalized :=
  {[ "epub" := Normalized "epub" "Structured idea generation" "documents" ]}.

Definition flat_listing : list item :=
  [File "SKILL.md" "https://raw.example/skills/x/SKILL.md"
        (Some samples.manifest);
   Other "link" "symlink"].

(** A repository whose name holds an exclude pattern. *)
Definition pages_archive : list string :=
  ["user.github.io-main"; "user.github.io-main/index.md";
   "user.github.io-main/docs/guide.md"].

Definition repository : remote :=
  Remote (Some "master")
         (fun _ => Archive ["skill-master"; "skill-master/SKILL.md"])
         (fun _ _ => Listing flat_listing).

Definition epub_url : string :=
  "https://github.com/smerchek/claude-epub-skill".

End more_samples.

(** * Properties *)

(** ** The order on strings *)

Lemma ascii_compare_refl a : Ascii.compare a a = Eq.
Proof. apply N.compare_refl. Qed.

Lemma ascii_compare_lt_trans a b c :
  Ascii.compare a b = Lt -> Ascii.compare b c = Lt -> Ascii.compare a c = Lt.
Proof. unfold Ascii.compare. rewrite !N.compare_lt_iff. lia. Qed.

Lemma string_compare_refl s : String.compare s s = Eq.
Proof.
  induction s as [|a s IH]; simpl; [done|]. by rewrite ascii_compare_refl.
Qed.

Lemma string_compare_lt_trans s1 s2 s3 :
  String.compare s1 s2 = Lt -> String.compare s2 s3 = Lt ->
  String.compare s1 s3 = Lt.
Proof.
  revert s2 s3.
  induction s1 as [|a s1 IH]; intros [|b s2] [|c s3]; simpl; try done.
  destruct (Ascii.compare a b) eqn:Hab; try done;
    destruct (Ascii.compare b c) eqn:Hbc; try done; intros H1 H2.
  - apply Ascii.compare_eq_iff in Hab, Hbc. subst.
    rewrite ascii_compare_refl. eauto.
  - apply Ascii.compare_eq_iff in Hab. subst. by rewrite Hbc.
  - apply Ascii.compare_eq_iff in Hbc. subst. by rewrite Hab.
  - by rewrite (ascii_compare_lt_trans a b c).
Qed.

Lemma str_le_refl s : str_le s s.
Proof. unfold str_le, String.leb. by rewrite string_compare_refl. Qed.

Lemma str_le_cases s t : str_le s t <-> s = t \/ str_lt s t.
Proof.
  unfold str_le, str_lt, String.leb, String.ltb.
  destruct (String.compare s t) eqn:H; split; intros Hc; try done; auto.
  - left. by apply String.compare_eq_iff.
  - destruct Hc as [->|]; [|done]. by rewrite string_compare_refl in H.
Qed.

Lemma str_lt_irrefl s : ~ str_lt s s.
Proof. unfold str_lt, String.ltb. by rewrite string_compare_refl. Qed.

Lemma str_lt_trans s t u : str_lt s t -> str_lt t u -> str_lt s u.
Proof.
  unfold str_lt, String.ltb. intros H1 H2.
  destruct (String.compare s t) eqn:E1; try done.
  destruct (String.compare t u) eqn:E2; try done.
  by rewrite (string_compare_lt_trans s t u).
Qed.

Lemma str_le_trans s t u : str_le s t -> str_le t u -> str_le s u.
Proof.
  rewrite !str_le_cases. intros [->|H1] [->|H2]; auto.
  right. by eapply str_lt_trans.
Qed.

Lemma str_le_total s t : str_le s t \/ str_le t s.
Proof. apply String.leb_total. Qed.

(** ** Python's [sorted] *)

Section sorted_facts.
Context {A : Type} (key : A -> string).

#[local] Abbreviation key_le := (key_le key).
#[local] Abbreviation key_lt := (key_lt key).

Lemma insert_by_perm x l : py.insert_by key x l ≡ₚ x :: l.
Proof.
  induction l as [|y r IH]; simpl; [done|].
  destruct (String.leb (key x) (key y)); [done|].
  rewrite IH. apply Permutation_swap.
Qed.

Lemma sorted_perm l : py.sorted key l ≡ₚ l.
Proof.
  induction l as [|x l IH]; simpl; [done|].
  by rewrite insert_by_perm, IH.
Qed.

Lemma insert_by_Sorted x l :
  Sorted key_le l -> Sorted key_le (py.insert_by key x l).
Proof.
  induction l as [|y r IH]; simpl; intros Hs.
  - by repeat constructor.
  - destruct (String.leb (key x) (key y)) eqn:Hxy.
    + constructor; [done|]. by constructor.
    + inversion Hs as [|? ? Hr Hhd]; subst.
      constructor; [by apply IH|].
      assert (Hyx : key_le y x).
      { destruct (str_le_total (key x) (key y)) as [H|H]; [|done].
        unfold str_le in H. congruence. }
      destruct r as [|z r]; simpl.
      * by constructor.
      * destruct (String.leb (key x) (key z)); constructor; [done|].
        by inversion Hhd.
Qed.

Lemma sorted_Sorted l : Sorted key_le (py.sorted key l).
Proof.
  induction l as [|x l IH]; simpl; [constructor|].
  by apply insert_by_Sorted.
Qed.

Lemma sorted_of_Sorted l : Sorted key_le l -> py.sorted key l = l.
Proof.
  induction l as [|x l IH]; simpl; [done|]. intros Hs.
  inversion Hs as [|? ? Hl Hhd]; subst. rewrite IH by done.
  destruct l as [|y r]; simpl; [done|].
  inversion Hhd as [|? ? Hxy]; subst. unfold key_le, str_le in Hxy.
  by rewrite Hxy.
Qed.

(** The sort is stable: elements with the same key keep their order. *)
Lemma insert_by_stable k x l :
  filter (fun y => key y = k) (py.insert_by key x l)
  = filter (fun y => key y = k) (x :: l).
Proof.
  induction l as [|y r IH]; simpl; [done|].
  destruct (String.leb (key x) (key y)) eqn:Hxy; [done|].
  rewrite filter_cons, IH, !filter_cons.
  destruct (decide (key y = k)) as [Hy|Hy];
    destruct (decide (key x = k)) as [Hx|Hx]; try done.
  exfalso. rewrite Hx, Hy in Hxy.
  pose proof (str_le_refl k) as Hk. unfold str_le in Hk. congruence.
Qed.

Lemma sorted_stable k l :
  filter (fun y => key y = k) (py.sorted key l)
  = filter (fun y => key y = k) l.
Proof.
  induction l as [|x l IH]; simpl; [done|].
  by rewrite insert_by_stable, !filter_cons, IH.
Qed.

#[local] Instance key_le_trans : Transitive key_le.
Proof. intros x y z. apply str_le_trans. Qed.

#[local] Instance key_lt_trans : Transitive key_lt.
Proof. intros x y z. apply str_lt_trans. Qed.

Lemma sorted_StronglySorted l : StronglySorted key_le (py.sorted key l).
Proof. apply Sorted_StronglySorted; [apply _|apply sorted_Sorted]. Qed.

(** With pairwise different keys the order is strict. *)
Lemma StronglySorted_strict l :
  StronglySorted key_le l -> NoDup (key <$> l) -> StronglySorted key_lt l.
Proof.
  induction 1 as [|x l Hl IH Hx]; intros Hnd; [constructor|].
  rewrite fmap_cons in Hnd. apply NoDup_cons in Hnd as [Hni Hnd].
  constructor; [by apply IH|].
  rewrite Forall_forall in Hx |- *. intros y Hy.
  destruct (proj1 (str_le_cases _ _) (Hx y Hy)) as [Heq|]; [|done].
  exfalso. apply Hni. rewrite Heq. by apply list_elem_of_fmap_2.
Qed.

Lemma StronglySorted_strict_NoDup l : StronglySorted key_lt l -> NoDup l.
Proof.
  induction 1 as [|x l Hl IH Hx]; [constructor|].
  apply NoDup_cons. split; [|done]. intros Hin.
  rewrite Forall_forall in Hx. by apply (str_lt_irrefl (key x)), (Hx x).
Qed.

(** Two strictly sorted lists with the same members are equal. *)
Lemma StronglySorted_strict_ext l1 l2 :
  StronglySorted key_lt l1 -> StronglySorted key_lt l2 ->
  (forall x, x ∈ l1 <-> x ∈ l2) -> l1 = l2.
Proof.
  intros H1 H2 Hext.
  apply (StronglySorted_unique_strong key_lt); [|done|done|].
  - intros x y _ _ Hxy Hyx. exfalso.
    apply (str_lt_irrefl (key x)). by eapply str_lt_trans.
  - apply NoDup_Permutation; eauto using StronglySorted_strict_NoDup.
Qed.
End sorted_facts.

(** ** The insertion-ordered dictionary *)

Section dict_facts.
Context {V : Type}.
Implicit Types (d : list (string * V)) (k : string) (v : V).

Lemma dict_get_set_eq k v d : py.dict_get k (py.dict_set k v d) = Some v.
Proof.
  induction d as [|[k' v'] d IH]; simpl; repeat case_decide; simpl;
    repeat case_decide; try done.
Qed.

Lemma dict_get_set_ne k k' v d :
  k ≠ k' -> py.dict_get k' (py.dict_set k v d) = py.dict_get k' d.
Proof.
  intros Hne. induction d as [|[k0 v0] d IH]; simpl; repeat case_decide; simpl;
    repeat case_decide; subst; try done.
Qed.

Lemma dict_get_None k d : py.dict_get k d = None <-> k ∉ d.*1.
Proof.
  induction d as [|[k' v'] d IH]; simpl.
  - split; [intros _; apply not_elem_of_nil|done].
  - rewrite not_elem_of_cons. case_decide; subst; [|tauto].
    split; [done|]. by intros [? _].
Qed.

Lemma dict_contains_spec k d : py.dict_contains k d = true <-> k ∈ d.*1.
Proof.
  unfold py.dict_contains. rewrite bool_decide_eq_true.
  destruct (py.dict_get k d) eqn:Hg.
  - split; [intros _|by eauto].
    destruct (decide (k ∈ d.*1)) as [|Hn]; [done|].
    apply dict_get_None in Hn. congruence.
  - split; [by intros [? ?]|]. intros Hin. by apply dict_get_None in Hg.
Qed.

Lemma dict_set_keys_in k v d : k ∈ d.*1 -> (py.dict_set k v d).*1 = d.*1.
Proof.
  induction d as [|[k' v'] d IH]; simpl; [by intros ?%elem_of_nil|].
  intros Hin. case_decide; subst; simpl; [done|].
  f_equal. apply IH. apply elem_of_cons in Hin as [?|?]; [done|done].
Qed.

Lemma dict_set_keys_notin k v d :
  k ∉ d.*1 -> py.dict_set k v d = d ++ [(k, v)].
Proof.
  induction d as [|[k' v'] d IH]; simpl; [done|].
  rewrite not_elem_of_cons. intros [Hne Hni].
  case_decide; [done|]. by rewrite IH.
Qed.

Lemma dict_set_NoDup k v d : NoDup d.*1 -> NoDup (py.dict_set k v d).*1.
Proof.
  intros Hnd. destruct (decide (k ∈ d.*1)) as [Hin|Hni].
  - by rewrite dict_set_keys_in.
  - rewrite dict_set_keys_notin, fmap_app by done. simpl.
    apply NoDup_app. split_and!; [done| |apply NoDup_singleton].
    intros x Hx ->%list_elem_of_singleton. done.
Qed.

Lemma dict_get_elem_of k v d :
  NoDup d.*1 -> (k, v) ∈ d <-> py.dict_get k d = Some v.
Proof.
  induction d as [|[k' v'] d IH]; simpl; intros Hnd.
  - split; [by intros ?%elem_of_nil|done].
  - apply NoDup_cons in Hnd as [Hni Hnd]. rewrite elem_of_cons.
    case_decide as Hk; subst.
    + split; [|intros [= ->]; by left].
      intros [[= ->]|Hin]; [done|]. exfalso. apply Hni.
      by apply (list_elem_of_fmap_2 fst) in Hin.
    + rewrite <- IH by done. split; [|by right]. intros [[= -> ->]|]; done.
Qed.

Lemma dict_values_elem_of v d :
  NoDup d.*1 -> v ∈ py.dict_values d <-> exists k, py.dict_get k d = Some v.
Proof.
  intros Hnd. unfold py.dict_values. rewrite list_elem_of_fmap. split.
  - intros [[k v'] [-> Hin]]. exists k. by apply dict_get_elem_of.
  - intros [k Hg]. exists (k, v). split; [done|]. by apply dict_get_elem_of.
Qed.
End dict_facts.

(** ** marketplace_updater.merge_plugins *)

Section merge_facts.
Import marketplace_updater.
Implicit Types (p q e : plugin) (n : string) (d : list (string * plugin)).

Lemma truthy_Some n : py.truthy (Some n) = true <-> n ≠ "".
Proof. destruct n; unfold py.truthy; split; done. Qed.

Lemma last_named_Some n l p :
  last_named n l = Some p -> p ∈ l /\ plugin_name p = Some n.
Proof.
  induction l as [|x l IH]; simpl; [done|].
  destruct (last_named n l) as [q|].
  - intros [= ->]. destruct IH as [? ?]; [done|]. split; [by right|done].
  - case_decide; [|done]. intros [= ->]. split; [by left|done].
Qed.

Lemma last_named_None n l :
  last_named n l = None <-> forall p, p ∈ l -> plugin_name p ≠ Some n.
Proof.
  induction l as [|x l IH]; simpl.
  - split; [by intros _ p ?%elem_of_nil|done].
  - destruct (last_named n l) as [q|] eqn:Hl.
    + split; [done|]. intros H. apply last_named_Some in Hl as [Hin Hq].
      exfalso. by apply (H q); [right|].
    + case_decide as Hx.
      * split; [done|]. intros H. exfalso. by apply (H x); [left|].
      * split; [|done]. intros _ p [->|Hin]%elem_of_cons; [done|].
        by apply IH.
Qed.

Lemma first_named_Some n l p :
  first_named n l = Some p -> p ∈ l /\ plugin_name p = Some n.
Proof.
  induction l as [|x l IH]; simpl; [done|]. case_decide as Hx.
  - intros [= ->]. split; [by left|done].
  - intros Hf. destruct (IH Hf). split; [by right|done].
Qed.

Lemma first_named_None n l :
  first_named n l = None <-> forall p, p ∈ l -> plugin_name p ≠ Some n.
Proof.
  induction l as [|x l IH]; simpl.
  - split; [by intros _ p ?%elem_of_nil|done].
  - case_decide as Hx.
    + split; [done|]. intros H. exfalso. by apply (H x); [left|].
    + rewrite IH. split.
      * intros H p [->|Hin]%elem_of_cons; [done|by apply H].
      * intros H p Hin. apply H. by right.
Qed.

Lemma last_named_app_last n l1 e l2 :
  plugin_name e = Some n ->
  (forall q, q ∈ l2 -> plugin_name q ≠ Some n) ->
  last_named n (l1 ++ e :: l2) = Some e.
Proof.
  intros He Hl2. induction l1 as [|x l1 IH]; simpl.
  - apply last_named_None in Hl2. rewrite Hl2. by case_decide.
  - by rewrite IH.
Qed.

Lemma merge_lookup_Some n A B p :
  merge_lookup n A B = Some p ->
  plugin_name p = Some n /\ (p ∈ A \/ p ∈ B).
Proof.
  unfold merge_lookup. destruct (last_named n A) as [e|] eqn:Hl.
  - intros [= ->]. apply last_named_Some in Hl as [? ?]. auto.
  - intros [? ?]%first_named_Some. auto.
Qed.

Lemma dict_wf_nil : dict_wf [].
Proof. split; [constructor|constructor]. Qed.

Lemma dict_wf_set n p d :
  dict_wf d -> plugin_name p = Some n -> n ≠ "" ->
  dict_wf (py.dict_set n p d).
Proof.
  intros [Hnd Hall] Hp Hn. split; [by apply dict_set_NoDup|].
  clear Hnd. induction Hall as [|[k v] d Hkv Hall IH]; simpl.
  - by repeat constructor.
  - case_decide; constructor; done.
Qed.

Lemma add_existing_wf A d : dict_wf d -> dict_wf (add_existing A d).
Proof.
  revert d. induction A as [|p A IH]; simpl; intros d Hd; [done|].
  destruct (plugin_name p) as [n|] eqn:Hp; [|by apply IH].
  destruct (py.truthy (Some n)) eqn:Ht; [|by apply IH].
  apply IH, dict_wf_set; [done|done|]. by apply truthy_Some.
Qed.

Lemma add_new_wf B d : dict_wf d -> dict_wf (add_new B d).
Proof.
  revert d. induction B as [|p B IH]; simpl; intros d Hd; [done|].
  destruct (plugin_name p) as [n|] eqn:Hp; [|by apply IH].
  destruct (py.truthy (Some n)) eqn:Ht; [|by apply IH].
  destruct (py.dict_contains n d); [by apply IH|].
  apply IH, dict_wf_set; [done|done|]. by apply truthy_Some.
Qed.

Lemma add_existing_get n A d :
  n ≠ "" ->
  py.dict_get n (add_existing A d) =
  match last_named n A with Some e => Some e | None => py.dict_get n d end.
Proof.
  intros Hn. revert d. induction A as [|p A IH]; simpl; intros d; [done|].
  destruct (plugin_name p) as [m|] eqn:Hp.
  - destruct (py.truthy (Some m)) eqn:Ht.
    + rewrite IH. destruct (last_named n A); [done|].
      case_decide as Hm.
      * injection Hm as ->. apply dict_get_set_eq.
      * apply dict_get_set_ne. congruence.
    + rewrite IH. destruct (last_named n A); [done|].
      case_decide as Hm; [|done]. injection Hm as ->.
      apply truthy_Some in Hn. congruence.
  - rewrite IH. destruct (last_named n A); [done|]. by case_decide.
Qed.

Lemma add_new_get n B d :
  n ≠ "" ->
  py.dict_get n (add_new B d) =
  match py.dict_get n d with Some e => Some e | None => first_named n B end.
Proof.
  intros Hn. revert d. induction B as [|p B IH]; simpl; intros d.
  { by destruct (py.dict_get n d). }
  destruct (plugin_name p) as [m|] eqn:Hp.
  - destruct (py.truthy (Some m)) eqn:Ht.
    + destruct (py.dict_contains m d) eqn:Hc.
      * rewrite IH. destruct (py.dict_get n d) eqn:Hg; [done|].
        case_decide as Hm; [|done]. injection Hm as ->.
        apply dict_contains_spec in Hc. apply dict_get_None in Hg. done.
      * rewrite IH. destruct (decide (m = n)) as [->|Hmn].
        -- rewrite dict_get_set_eq.
           assert (py.dict_get n d = None) as ->.
           { apply dict_get_None. intros Hin.
             apply dict_contains_spec in Hin. congruence. }
           by case_decide.
        -- rewrite dict_get_set_ne by done.
           destruct (py.dict_get n d); [done|]. case_decide; congruence.
    + rewrite IH. destruct (py.dict_get n d); [done|].
      case_decide as Hm; [|done]. injection Hm as ->.
      apply truthy_Some in Hn. congruence.
  - rewrite IH. destruct (py.dict_get n d); [done|]. by case_decide.
Qed.

Lemma merged_dict_wf A B : dict_wf (add_new B (add_existing A [])).
Proof. apply add_new_wf, add_existing_wf, dict_wf_nil. Qed.

Lemma merged_dict_get n A B :
  n ≠ "" ->
  py.dict_get n (add_new B (add_existing A [])) = merge_lookup n A B.
Proof.
  intros Hn. rewrite add_new_get, add_existing_get by done.
  unfold merge_lookup. simpl. by destruct (last_named n A).
Qed.

Lemma dict_wf_get_empty d : dict_wf d -> py.dict_get "" d = None.
Proof.
  intros [_ Hall]. apply dict_get_None. intros Hin.
  apply list_elem_of_fmap in Hin as [[k v] [Hk Hin]]. simpl in Hk. subst k.
  rewrite Forall_forall in Hall. by destruct (Hall _ Hin).
Qed.

Lemma dict_wf_keys d : dict_wf d -> name_key <$> py.dict_values d = d.*1.
Proof.
  intros [_ Hall]. unfold py.dict_values.
  induction Hall as [|[k v] d [Hkv _] Hall IH]; simpl; [done|].
  f_equal; [|done]. unfold name_key. simpl in Hkv. by rewrite Hkv.
Qed.

(** Membership in the merged list. *)
Lemma elem_of_merge_plugins p A B :
  p ∈ merge_plugins A B <->
  exists n, n ≠ "" /\ merge_lookup n A B = Some p.
Proof.
  unfold merge_plugins. rewrite sorted_perm.
  pose proof (merged_dict_wf A B) as Hwf.
  rewrite dict_values_elem_of by apply Hwf. split.
  - intros [k Hk]. destruct (decide (k = "")) as [->|Hne].
    + by rewrite dict_wf_get_empty in Hk.
    + exists k. by rewrite <- merged_dict_get.
  - intros (n & Hn & Hl). exists n. by rewrite merged_dict_get.
Qed.

Lemma merge_plugins_keys_NoDup A B : NoDup (name_key <$> merge_plugins A B).
Proof.
  unfold merge_plugins. rewrite sorted_perm.
  rewrite dict_wf_keys by apply merged_dict_wf. apply merged_dict_wf.
Qed.

Lemma merge_plugins_named p A B :
  p ∈ merge_plugins A B -> plugin_name p = Some (name_key p) /\ name_key p ≠ "".
Proof.
  intros (n & Hn & Hl)%elem_of_merge_plugins.
  apply merge_lookup_Some in Hl as [Hp _]. unfold name_key. by rewrite Hp.
Qed.

Lemma merge_plugins_StronglySorted A B :
  StronglySorted (key_le name_key) (merge_plugins A B).
Proof. apply sorted_StronglySorted. Qed.

Lemma merge_plugins_strict A B :
  StronglySorted (key_lt name_key) (merge_plugins A B).
Proof.
  apply StronglySorted_strict;
    [apply merge_plugins_StronglySorted|apply merge_plugins_keys_NoDup].
Qed.

Lemma merge_plugins_names_NoDup A B :
  NoDup (plugin_name <$> merge_plugins A B).
Proof.
  assert (plugin_name <$> merge_plugins A B
          = Some <$> (name_key <$> merge_plugins A B)) as ->.
  { rewrite <- list_fmap_compose. apply Forall_fmap_ext_1, Forall_forall.
    intros p Hp. simpl. by apply merge_plugins_named in Hp as [-> _]. }
  apply (NoDup_fmap_2 _), merge_plugins_keys_NoDup.
Qed.
End merge_facts.

Section merge_claims.
Import marketplace_updater.
Implicit Types (p q e : plugin) (n : string).

Lemma merge_lookup_unique p q n A B :
  p ∈ merge_plugins A B -> plugin_name p = Some n ->
  merge_lookup n A B = Some q -> p = q.
Proof.
  intros (m & Hm & Hl)%elem_of_merge_plugins Hp Hq.
  pose proof (merge_lookup_Some _ _ _ _ Hl) as [Hpm _].
  assert (m = n) as -> by congruence. congruence.
Qed.

(** The names of a merge are the non-empty names of its two arguments. *)
Lemma merge_plugins_names n A B :
  Some n ∈ plugin_name <$> merge_plugins A B <->
  n ≠ "" /\ (Some n ∈ plugin_name <$> A \/ Some n ∈ plugin_name <$> B).
Proof.
  rewrite !list_elem_of_fmap. split.
  - intros (p & Hp & (m & Hm & Hl)%elem_of_merge_plugins).
    apply merge_lookup_Some in Hl as [Hpm Hin].
    assert (m = n) as -> by congruence.
    split; [done|]. destruct Hin; eauto.
  - intros [Hn Hin].
    destruct (merge_lookup n A B) as [e|] eqn:Hl.
    + exists e. pose proof (merge_lookup_Some _ _ _ _ Hl) as [He _].
      split; [done|]. apply elem_of_merge_plugins. eauto.
    + exfalso. unfold merge_lookup in Hl.
      destruct (last_named n A) eqn:HA; [done|].
      rewrite last_named_None in HA. rewrite first_named_None in Hl.
      destruct Hin as [(p & Hp & Hin)|(p & Hp & Hin)];
        [by apply (HA p)|by apply (Hl p)].
Qed.

(** Merging the first argument into a merge again changes no lookup. *)
Lemma merge_lookup_again n A B :
  n ≠ "" ->
  merge_lookup n (merge_plugins A B) A = merge_lookup n A B.
Proof.
  intros Hn. destruct (merge_lookup n A B) as [p|] eqn:Hl.
  - assert (Hin : p ∈ merge_plugins A B) by (apply elem_of_merge_plugins; eauto).
    pose proof (merge_lookup_Some _ _ _ _ Hl) as [Hp _].
    unfold merge_lookup at 1.
    destruct (last_named n (merge_plugins A B)) as [q|] eqn:Hq.
    + apply last_named_Some in Hq as [Hqin Hqn]. f_equal.
      by apply (merge_lookup_unique q p n A B).
    + rewrite last_named_None in Hq. by destruct (Hq p Hin).
  - unfold merge_lookup at 1.
    destruct (last_named n (merge_plugins A B)) as [q|] eqn:Hq.
    + apply last_named_Some in Hq as [Hqin Hqn].
      apply elem_of_merge_plugins in Hqin as (m & Hm & Hlm).
      pose proof (merge_lookup_Some _ _ _ _ Hlm) as [Hqm _].
      assert (m = n) as -> by congruence. congruence.
    + unfold merge_lookup in Hl. destruct (last_named n A) eqn:HA; [done|].
      apply first_named_None. by apply last_named_None.
Qed.

Lemma merge_plugins_again A B :
  merge_plugins (merge_plugins A B) A = merge_plugins A B.
Proof.
  apply (StronglySorted_strict_ext name_key); try apply merge_plugins_strict.
  intros p. rewrite !elem_of_merge_plugins.
  split; intros (n & Hn & Hl); exists n; split; try done.
  - by rewrite <- merge_lookup_again.
  - by rewrite merge_lookup_again.
Qed.

(** C6: for every pair of input lists, the output of [merge_plugins] is
    sorted by name (every entry's name is at most the name of every later
    entry, in the order of Python on strings) and no name occurs twice. *)
Theorem C6_merge_sorted_and_unique (A B : list plugin) :
  StronglySorted (key_le name_key) (merge_plugins A B) /\
  NoDup (plugin_name <$> merge_plugins A B).
Proof.
  split; [apply merge_plugins_StronglySorted|apply merge_plugins_names_NoDup].
Qed.

(** C10: an entry whose name is missing or empty is never in the output of
    [merge_plugins]; and when several existing entries share a non-empty
    name, the output holds the last of them under that name, and no other
    entry with that name. *)
Theorem C10_merge_drops_unnamed_later_existing_wins (A B : list plugin) :
  (forall p, py.truthy (plugin_name p) = false -> p ∉ merge_plugins A B) /\
  (forall A1 e A2 n,
      A = A1 ++ e :: A2 -> plugin_name e = Some n -> n ≠ "" ->
      (forall q, q ∈ A2 -> plugin_name q ≠ Some n) ->
      e ∈ merge_plugins A B /\
      forall p, p ∈ merge_plugins A B -> plugin_name p = Some n -> p = e).
Proof.
  split.
  - intros p Hp Hin. apply merge_plugins_named in Hin as [Hn Hne].
    rewrite Hn in Hp. apply truthy_Some in Hne. congruence.
  - intros A1 e A2 n -> He Hn HA2.
    assert (Hl : merge_lookup n (A1 ++ e :: A2) B = Some e).
    { unfold merge_lookup. by rewrite last_named_app_last. }
    split; [apply elem_of_merge_plugins; eauto|].
    intros p Hin Hp. by apply (merge_lookup_unique p e n (A1 ++ e :: A2) B).
Qed.

(** C5, as amended: merging a list with itself yields the set of its
    non-empty names (an entry with a missing or empty name is dropped);
    merging the result of a merge with the first list again yields exactly
    the same result; and an entry of the output whose name is the name of
    an existing entry is an existing entry. *)
Theorem C5_merge_idempotent (A B : list plugin) :
  (forall o : option string,
      o ∈ plugin_name <$> merge_plugins A A <->
      o ∈ plugin_name <$> A /\ py.truthy o = true) /\
  merge_plugins (merge_plugins A B) A = merge_plugins A B /\
  (forall p, p ∈ merge_plugins A B ->
             (exists q, q ∈ A /\ plugin_name q = plugin_name p) -> p ∈ A).
Proof.
  split_and!.
  - intros [n|].
    + rewrite merge_plugins_names, truthy_Some. tauto.
    + split; [|by intros [_ ?]].
      intros (p & Hp & Hin)%list_elem_of_fmap.
      apply merge_plugins_named in Hin as [Hn _]. congruence.
  - apply merge_plugins_again.
  - intros p (n & Hn & Hl)%elem_of_merge_plugins (q & Hq & Hqp).
    pose proof (merge_lookup_Some _ _ _ _ Hl) as [Hp _].
    unfold merge_lookup in Hl.
    destruct (last_named n A) as [e|] eqn:HA.
    + injection Hl as ->. by apply last_named_Some in HA as [? _].
    + rewrite last_named_None in HA. destruct (HA q Hq). congruence.
Qed.
End merge_claims.

(** ** github_fetcher: the subpath strategy *)

Section subfolder_facts.
Import github_fetcher.
Variables owner repo branch : string.

(** The loop over the items of one listing, as a function of its own. *)
Lemma fetch_contents_recursive_ok path target_dir remote :
  (fetch_contents_recursive owner repo branch path target_dir remote).2
  = first_level_ok remote.
Proof.
  destruct remote as [|contents]; simpl; [done|].
  match goal with
  | |- (let '(_, _) := ?loop contents in _).2 = _ =>
      assert (Hloop : forall items, (loop items).2 = forallb item_downloads items)
  end.
  { induction items as [|[name url [content|]|name sub|name type] items IH];
      simpl; try done.
    - destruct (_ items) as [evs ok] eqn:Hr in *. simpl in *. done.
    - destruct (fetch_contents_recursive _ _ _ _ _ sub) as [sub_evs sub_ok].
      destruct (_ items) as [evs ok] eqn:Hr in *. simpl in *. done. }
  specialize (Hloop contents).
  destruct (_ contents) as [evs ok] eqn:Hr in *. simpl in *. done.
Qed.

Lemma fetch_subfolder_ok subfolder_path target_dir remote :
  (fetch_subfolder owner repo branch subfolder_path target_dir remote).2
  = first_level_ok remote.
Proof.
  unfold fetch_subfolder.
  pose proof (fetch_contents_recursive_ok subfolder_path target_dir remote) as H.
  destruct (fetch_contents_recursive _ _ _ _ _ _) as [evs ok]. done.
Qed.
End subfolder_facts.

Section throttle_facts.
Import github_fetcher.
Variables owner repo branch : string.

(** Every call of [_fetch_contents_recursive] starts with its listing
    request. *)
Lemma fetch_contents_recursive_head path target_dir remote :
  exists evs,
    (fetch_contents_recursive owner repo branch path target_dir remote).1
    = SessionGet (contents_url owner repo branch path) :: evs.
Proof.
  destruct remote as [|contents]; simpl; [by eexists|].
  destruct (_ contents) as [evs ok]. by eexists.
Qed.

(** In a listing without subdirectories every request of the loop follows
    its own throttle call. *)
Lemma flat_listing_throttled path target_dir contents armed :
  is_flat contents = true ->
  exists evs ok,
    fetch_contents_recursive owner repo branch path target_dir
                             (Listing contents)
    = (SessionGet (contents_url owner repo branch path) :: evs, ok) /\
    throttled_from armed evs = true.
Proof.
  simpl.
  match goal with
  | |- _ -> exists _ _, (let '(_, _) := ?loop contents in _) = _ /\ _ =>
      assert (Hloop : forall items b, is_flat items = true ->
                throttled_from b (loop items).1 = true)
  end.
  { induction items as [|[name url [content|]|name sub|name type] items IH];
      intros b Hflat; simpl in *; try done.
    - specialize (IH false Hflat).
      destruct (_ items) as [evs ok] eqn:Hr in *. simpl in *. done.
    - by apply IH. }
  intros Hflat. specialize (Hloop contents armed Hflat).
  destruct (_ contents) as [evs ok] eqn:Hr in *. simpl in *. eauto.
Qed.

Lemma fetch_subfolder_flat_throttled subfolder_path target_dir contents :
  is_flat contents = true ->
  throttled (fetch_subfolder owner repo branch subfolder_path target_dir
                             (Listing contents)).1 = true.
Proof.
  intros Hflat. unfold fetch_subfolder.
  destruct (flat_listing_throttled subfolder_path target_dir contents false Hflat)
    as (evs & ok & -> & Hthr).
  done.
Qed.
End throttle_facts.

Section subfolder_claims.
Import github_fetcher.

(** A traversal of a folder with one file and one empty subdirectory: the
    second listing request follows the write and the [mkdir] directly. *)
Example nested_listing_trace :
  fetch_subfolder "obra" "superpowers" "main" "skills/x" "/tmp/x"
    (Listing [File "SKILL.md" "https://raw.example/SKILL.md" (Some "text");
              Dir "scripts" (Listing [])])
  = ([WaitForRateLimitReset;
      Mkdir "/tmp/x";
      SessionGet
        "https://api.github.com/repos/obra/superpowers/contents/skills/x?ref=main";
      WaitForRateLimitReset;
      SessionGet "https://raw.example/SKILL.md";
      WriteBytes "/tmp/x/SKILL.md" "text";
      Mkdir "/tmp/x/scripts";
      SessionGet
        "https://api.github.com/repos/obra/superpowers/contents/skills/x/scripts?ref=main"],
     true).
Proof. reflexivity. Qed.

(** C1 (the code does otherwise): whatever happens below a subdirectory,
    also when its listing request or a download inside it fails,
    [fetch_subfolder] returns [True]: the value of the recursive call is
    dropped. *)
Theorem C1_nested_failure_returns_true
    (owner repo branch subfolder_path target_dir name : string)
    (sub : listing) :
  (fetch_subfolder owner repo branch subfolder_path target_dir
                   (Listing [Dir name sub])).2 = true /\
  (fetch_subfolder owner repo branch subfolder_path target_dir
                   (Listing [Dir name ListingFails])).2 = true.
Proof. by rewrite !fetch_subfolder_ok. Qed.

(** C4 (the code does otherwise): the listing request for a nested
    subdirectory is sent without a throttle call since the previous
    request, whatever the subdirectory holds. *)
Theorem C4_nested_listing_not_throttled
    (owner repo branch subfolder_path target_dir name : string)
    (sub : listing) :
  throttled (fetch_subfolder owner repo branch subfolder_path target_dir
                             (Listing [Dir name sub])).1 = false.
Proof.
  unfold fetch_subfolder. simpl.
  destruct (fetch_contents_recursive_head owner repo branch
              (subfolder_path +:+ "/" +:+ name)
              (path_join target_dir name) sub) as [evs Hevs].
  destruct (fetch_contents_recursive _ _ _ _ _ sub) as [sub_evs sub_ok].
  simpl in Hevs. subst sub_evs. done.
Qed.
End subfolder_claims.

(** ** github_fetcher: the whole-repository strategy *)

Section standalone_facts.
Import github_fetcher.

Lemma append_cons a s t : String a s +:+ t = String a (s +:+ t).
Proof. reflexivity. Qed.

Lemma append_nil s : "" +:+ s = s.
Proof. reflexivity. Qed.

Lemma prefix_spec p s : String.prefix p s = true <-> exists t, s = p +:+ t.
Proof.
  revert s. induction p as [|a p IH]; intros [|b s]; simpl.
  - split; [by exists ""|done].
  - split; [by exists (String b s)|done].
  - split; [done|]. intros [t Ht]. by rewrite append_cons in Ht.
  - destruct (Ascii.ascii_dec a b) as [->|Hne].
    + rewrite IH. split; intros [t Ht]; exists t;
        rewrite append_cons in *; congruence.
    + split; [done|]. intros [t Ht]. rewrite append_cons in Ht. congruence.
Qed.

(** [py.contains] is the substring test. *)
Lemma contains_spec p s :
  py.contains p s = true <-> exists a b, s = a +:+ p +:+ b.
Proof.
  induction s as [|c s IH].
  - change (py.contains p "") with (String.prefix p "" || false).
    rewrite orb_false_r, prefix_spec. split.
    + intros [t Ht]. by exists "", t.
    + intros ([|? a] & b & Hab); [by exists b|by rewrite append_cons in Hab].
  - change (py.contains p (String c s))
      with (String.prefix p (String c s) || py.contains p s).
    rewrite orb_true_iff, IH, prefix_spec. split.
    + intros [[t Ht]|(a & b & Hab)]; [by exists "", t|].
      exists (String c a), b. by rewrite append_cons, Hab.
    + intros ([|c' a] & b & Hab); [left; by exists b|].
      right. exists a, b. rewrite append_cons in Hab. congruence.
Qed.

Lemma should_exclude_spec exclude_patterns member_name :
  should_exclude exclude_patterns member_name = true <->
  exists pattern,
    pattern ∈ exclude_patterns /\ py.contains pattern member_name = true.
Proof.
  induction exclude_patterns as [|p ps IH]; simpl.
  - split; [done|]. by intros (? & ?%elem_of_nil & _).
  - destruct (py.contains p member_name) eqn:Hc.
    + split; [|done]. intros _. exists p. split; [by left|done].
    + rewrite IH. split.
      * intros (q & Hq & Hqc). exists q. split; [by right|done].
      * intros (q & [->|Hq]%elem_of_cons & Hqc); [congruence|eauto].
Qed.

End standalone_facts.

Section standalone_throttle.
Import github_fetcher.


End standalone_throttle.

Section standalone_claims.
Import github_fetcher.

(** C8 (the code does otherwise): with the default exclude patterns a
    bytecode file outside a [__pycache__] directory is not skipped: the
    pattern [*.pyc] is looked for as a substring, star included, so the
    member [skill-main/scripts/tool.pyc] is extracted. *)
Theorem C8_default_patterns_keep_bytecode_file :
  should_exclude default_exclude_patterns "skill-main/scripts/tool.pyc" = false /\
  fetch_standalone_repo "obra" "skill" "main" "/tmp/skill" None
    (Archive ["skill-main"; "skill-main/SKILL.md";
              "skill-main/scripts/tool.pyc";
              "skill-main/__pycache__/tool.cpython-311.pyc"])
  = ([WaitForRateLimitReset;
      SessionGet "https://github.com/obra/skill/archive/refs/heads/main.tar.gz";
      Mkdir "/tmp/skill";
      TarExtract "SKILL.md" "/tmp/skill";
      TarExtract "scripts/tool.pyc" "/tmp/skill"], true).
Proof. split; reflexivity. Qed.
End standalone_claims.

(** ** utils.parse_github_url *)

Section parse_facts.
Import utils.
Variable urlparse_path : string -> string.

Lemma path_parts_nonempty url p : p ∈ path_parts urlparse_path url -> p ≠ "".
Proof. unfold path_parts. by intros [? _]%list_elem_of_filter. Qed.

Lemma drop_nil_iff {A} n (l : list A) : drop n l = [] <-> length l <= n.
Proof.
  split; [|apply drop_ge]. intros H.
  apply (f_equal length) in H. rewrite length_drop in H. simpl in H. lia.
Qed.

(** C7, as amended: with fewer than two segments the resolver raises
    [ValueError]; with two or more it returns the first two segments as
    owner and repository; when the segment at index 2 is [tree] and a
    segment follows it, the branch is that next segment and the subpath is
    the remaining segments joined with [/] ([None] when none remains);
    otherwise, also when [tree] is the last segment, the branch is [main]
    and the subpath is [None]. *)
Theorem C7_parse_github_url_resolves (url : string) :
  let parts := path_parts urlparse_path url in
  (length parts < 2 ->
   parse_github_url urlparse_path url
   = inl (ValueError ("Invalid GitHub URL: " +:+ url))) /\
  (2 <= length parts ->
   exists owner repo branch subfolder_path,
     parse_github_url urlparse_path url
     = inr (owner, repo, branch, subfolder_path) /\
     parts !! 0 = Some owner /\ parts !! 1 = Some repo /\
     (parts !! 2 = Some "tree" /\ 3 < length parts ->
      parts !! 3 = Some branch /\
      subfolder_path = if decide (drop 4 parts = [])
                       then None else Some (py.join "/" (drop 4 parts))) /\
     (~ (parts !! 2 = Some "tree" /\ 3 < length parts) ->
      branch = "main" /\ subfolder_path = None)).
Proof.
  intros parts. unfold parse_github_url. fold parts. split.
  - intros Hlt. by case_decide.
  - intros Hge. case_decide as Hlt; [lia|].
    destruct parts as [|owner [|repo rest]] eqn:Hparts; simpl in *; try lia.
    exists owner, repo. case_decide as Htree.
    + destruct Htree as [Hlen Htree].
      destruct rest as [|marker [|branch more]]; simpl in *; try lia.
      exists branch. eexists. split; [done|]. split_and!; try done.
      * intros _. split; [done|].
        case_decide as H4; case_decide as Hd; try done.
        -- destruct more; simpl in *; [lia|done].
        -- destruct more; simpl in *; [done|lia].
      * intros Hn. destruct Hn. split; [done|lia].
    + exists "main", None. split; [done|]. split_and!; try done.
      intros [? ?]. destruct Htree. split; [lia|done].
Qed.
End parse_facts.

(** ** skill_processor.validate_skill *)

Section validate_facts.
Import skill_processor.
Variable frontmatter_load : string -> option (gmap string string).

Lemma string_length_zero s : String.length s = 0 <-> s = "".
Proof. destruct s; simpl; split; done. Qed.

(** The validator accepts exactly the directories whose [SKILL.md] exists
    and is not empty. *)
Lemma validate_skill_valid skill_path skill_dir :
  valid (validate_skill frontmatter_load skill_path skill_dir) = true <->
  exists skill_md, skill_dir = Some (Directory (Some skill_md)) /\ skill_md ≠ "".
Proof.
  destruct skill_dir as [[|[skill_md|]]|]; simpl;
    try (split; [done|by intros (? & ? & ?)]).
  case_decide as Hsize; simpl.
  - apply string_length_zero in Hsize. split; [done|].
    intros (? & [= <-] & ?). done.
  - split; [|done]. intros _. exists skill_md. split; [done|].
    by rewrite <- string_length_zero.
Qed.

(** C3 (the code does otherwise): when the header block of an existing,
    non-empty manifest fails to parse, the validator records no error and
    returns a valid result whose metadata is the empty mapping. *)
Theorem C3_unparsable_header_is_accepted (skill_path skill_md : string) :
  frontmatter_load skill_md = None -> skill_md ≠ "" ->
  let result :=
    validate_skill frontmatter_load skill_path
                   (Some (Directory (Some skill_md))) in
  valid result = true /\ errors result = [] /\ metadata result = Some ∅.
Proof.
  intros Hload Hne. simpl. unfold parse_skill_frontmatter. rewrite Hload.
  case_decide as Hsize; [by apply string_length_zero in Hsize|]. done.
Qed.
End validate_facts.

(** ** fetch_external_skills: the orchestrator *)

Section orchestrator_facts.
Import skill_processor marketplace_updater fetch_external_skills.
Variable frontmatter_load : string -> option (gmap string string).
Variable github : skill_config -> fetch_outcome.
Variable mkdtemp : string -> string.
Variable dry_run : bool.

#[local] Abbreviation fetch_skill' :=
  (fetch_skill frontmatter_load github mkdtemp false dry_run).
#[local] Abbreviation fetch_each' :=
  (fetch_each frontmatter_load github mkdtemp false dry_run).

(** Without [--force], a package whose target folder exists is skipped:
    only the [skipped] counter changes. *)
Lemma fetch_skill_skips s st entry :
  base_dir st !! target_folder s = Some entry ->
  fetch_skill' s st
  = (State (base_dir st)
           (Stats (total (run_stats st)) (successful (run_stats st))
                  (failed (run_stats st)) (S (skipped (run_stats st)))
                  (stat_errors (run_stats st)))
           (registry st), true).
Proof.
  intros Hex. unfold fetch_skill, target_exists. rewrite Hex.
  rewrite bool_decide_eq_true_2 by eauto. done.
Qed.

(** Without [--force], a folder that exists is never replaced. *)
Lemma fetch_skill_keeps_existing s st t entry :
  base_dir st !! t = Some entry ->
  base_dir (fetch_skill' s st).1 !! t = Some entry.
Proof.
  intros Hex. unfold fetch_skill, target_exists, record_failure.
  case_bool_decide as Htarget; simpl; [done|].
  destruct dry_run; [done|].
  destruct (github s) as [|skill_md]; [done|].
  destruct (negb (valid _)); simpl; [done|].
  rewrite lookup_insert_ne; [done|]. intros <-. apply Htarget. eauto.
Qed.

Lemma fetch_skill_skipped_mono s st :
  skipped (run_stats st) <= skipped (run_stats (fetch_skill' s st).1).
Proof.
  unfold fetch_skill, record_failure.
  destruct (target_exists st s && negb false); simpl; [lia|].
  destruct dry_run; [done|].
  destruct (github s) as [|skill_md]; simpl; [done|].
  destruct (negb (valid _)); simpl; done.
Qed.

Lemma fetch_each_keeps_existing out skills st md t entry :
  base_dir st !! t = Some entry ->
  base_dir (fetch_each' out skills st md).1 !! t = Some entry.
Proof.
  revert st md. induction skills as [|s skills IH]; intros st md Hex; [done|].
  simpl. pose proof (fetch_skill_keeps_existing s st t entry Hex) as Hk.
  destruct (fetch_skill' s st) as [st' success]. by apply IH.
Qed.

Lemma fetch_each_skipped_mono out skills st md :
  skipped (run_stats st)
  <= skipped (run_stats (fetch_each' out skills st md).1).
Proof.
  revert st md. induction skills as [|s skills IH]; intros st md; [done|].
  simpl. pose proof (fetch_skill_skipped_mono s st) as Hk.
  destruct (fetch_skill' s st) as [st' success]. simpl in Hk.
  etrans; [exact Hk|apply IH].
Qed.

(** A key of the batch stays in the batch. *)
Lemma fetch_each_keeps_keys out skills st (md : gmap string normalized) k :
  is_Some (md !! k) -> is_Some ((fetch_each' out skills st md).2 !! k).
Proof.
  revert st md. induction skills as [|s skills IH]; intros st md Hk; [done|].
  simpl. destruct (fetch_skill' s st) as [st' success]. apply IH.
  destruct success; [|done].
  destruct (base_dir st' !! target_folder s); [|done].
  destruct (valid _); [|done].
  rewrite lookup_insert. case_decide; [by eauto|done].
Qed.

(** Skills with other ids leave the batch entry of [k] alone. *)
Lemma fetch_each_other_ids out skills st (md : gmap string normalized) k :
  k ∉ id <$> skills ->
  (fetch_each' out skills st md).2 !! k = md !! k.
Proof.
  revert st md. induction skills as [|s skills IH]; intros st md Hk; [done|].
  rewrite fmap_cons, not_elem_of_cons in Hk. destruct Hk as [Hne Hk].
  simpl. destruct (fetch_skill' s st) as [st' success]. rewrite IH by done.
  destruct success; [|done].
  destruct (base_dir st' !! target_folder s); [|done].
  destruct (valid _); [|done].
  by rewrite lookup_insert_ne.
Qed.

(** One step of the loop on a package that is skipped and valid. *)
Lemma fetch_each_skipped_step out s skills st md entry :
  base_dir st !! target_folder s = Some entry ->
  valid (validate_skill frontmatter_load
           (target_path out (target_folder s)) (Some entry)) = true ->
  exists st',
    base_dir st' = base_dir st /\
    skipped (run_stats st') = S (skipped (run_stats st)) /\
    fetch_each' out (s :: skills) st md
    = fetch_each' out skills st'
        (<[id s := normalize_skill_metadata s
                     (metadata (validate_skill frontmatter_load
                        (target_path out (target_folder s)) (Some entry)))]>
           md).
Proof.
  intros Hex Hvalid. cbn [fetch_each].
  rewrite (fetch_skill_skips s st entry Hex). cbn [base_dir].
  rewrite Hex, Hvalid. eexists. split_and!; [| |reflexivity]; done.
Qed.

Lemma fetch_each_registers_skipped out skills st md s entry :
  s ∈ skills ->
  base_dir st !! target_folder s = Some entry ->
  valid (validate_skill frontmatter_load
           (target_path out (target_folder s)) (Some entry)) = true ->
  skipped (run_stats st)
  < skipped (run_stats (fetch_each' out skills st md).1) /\
  is_Some ((fetch_each' out skills st md).2 !! id s) /\
  (NoDup (id <$> skills) ->
   (fetch_each' out skills st md).2 !! id s
   = Some (normalize_skill_metadata s
             (metadata (validate_skill frontmatter_load
                (target_path out (target_folder s)) (Some entry))))).
Proof.
  intros Hin Hex Hvalid. revert st md Hex.
  induction skills as [|x skills IH]; intros st md Hex;
    [by apply elem_of_nil in Hin|].
  destruct (decide (x = s)) as [->|Hne].
  - destruct (fetch_each_skipped_step out s skills st md entry Hex Hvalid)
      as (st' & Hdir & Hsk & ->).
    split_and!.
    + pose proof (fetch_each_skipped_mono out skills st'
        (<[id s := normalize_skill_metadata s
              (metadata (validate_skill frontmatter_load
                 (target_path out (target_folder s)) (Some entry)))]> md)).
      lia.
    + apply fetch_each_keeps_keys. rewrite lookup_insert_eq. eauto.
    + rewrite fmap_cons. intros [Hni _]%NoDup_cons.
      rewrite fetch_each_other_ids by done. apply lookup_insert_eq.
  - apply elem_of_cons in Hin as [->|Hin]; [done|].
    simpl. pose proof (fetch_skill_keeps_existing x st _ entry Hex) as Hk.
    pose proof (fetch_skill_skipped_mono x st) as Hm.
    destruct (fetch_skill' x st) as [st' success]. simpl in Hk, Hm.
    match goal with
    | |- context [fetch_each' out skills st' ?m] =>
        destruct (IH Hin st' m Hk) as (H1 & H2 & H3)
    end.
    split_and!; [lia|done|].
    intros [_ Hnd]%NoDup_cons. by apply H3.
Qed.

(** One turn of the loop of [fetch_all_skills]. *)
Lemma fetch_each_step out s rest st md st' success :
  fetch_skill' s st = (st', success) ->
  fetch_each' out (s :: rest) st md
  = fetch_each' out rest st'
      (if success
       then match base_dir st' !! target_folder s with
            | Some entry =>
                if valid (validate_skill frontmatter_load
                            (target_path out (target_folder s)) (Some entry))
                then <[id s := normalize_skill_metadata s
                         (metadata (validate_skill frontmatter_load
                            (target_path out (target_folder s))
                            (Some entry)))]> md
                else md
            | None => md
            end
       else md).
Proof. intros Hstep. cbn [fetch_each]. by rewrite Hstep. Qed.
End orchestrator_facts.

Section fetch_facts.
Import skill_processor marketplace_updater fetch_external_skills.
Variable frontmatter_load : string -> option (gmap string string).
Variable github : skill_config -> fetch_outcome.
Variable mkdtemp : string -> string.

(** A package whose folder is absent and whose fetch delivers a non-empty
    manifest is moved into place and counted as successful. *)
Lemma fetch_skill_fetches force s st skill_md :
  base_dir st !! target_folder s = None ->
  github s = Fetched (Some skill_md) -> skill_md ≠ "" ->
  fetch_skill frontmatter_load github mkdtemp force false s st
  = (State (<[target_folder s := Directory (Some skill_md)]> (base_dir st))
           (Stats (total (run_stats st)) (S (successful (run_stats st)))
                  (failed (run_stats st)) (skipped (run_stats st))
                  (stat_errors (run_stats st)))
           (registry st), true).
Proof.
  intros Habsent Hgh Hne. unfold fetch_skill, target_exists.
  rewrite Habsent, bool_decide_eq_false_2 by (by intros [? ?]).
  cbn [andb]. rewrite Hgh.
  assert (valid (validate_skill frontmatter_load
                   (mkdtemp ("skill_fetch_" +:+ id s +:+ "_"))
                   (Some (Directory (Some skill_md)))) = true) as ->.
  { apply validate_skill_valid. eauto. }
  done.
Qed.
End fetch_facts.

Section orchestrator_claims.
Import skill_processor marketplace_updater fetch_external_skills.
Variable frontmatter_load : string -> option (gmap string string).
Variable github : skill_config -> fetch_outcome.
Variable mkdtemp : string -> string.

(** When the registry update reports success, every configured skill with
    a non-empty id that is in the batch has an entry in the written
    registry. *)
Lemma update_marketplace_registers config st
    (skill_metadata : gmap string normalized) s :
  s ∈ skills config -> is_Some (skill_metadata !! id s) -> id s ≠ "" ->
  (update_marketplace false config st skill_metadata).2 = true ->
  exists doc plugins,
    marketplace_json
      (registry (update_marketplace false config st skill_metadata).1)
    = Some doc /\
    mp_plugins doc = Some plugins /\
    Some (id s) ∈ plugin_name <$> plugins.
Proof.
  intros Hin Hmd Hid. unfold update_marketplace.
  destruct (marketplace_json (registry st)) as [doc|] eqn:Hjson; [|done].
  unfold update_marketplace_with_skills, load_marketplace. rewrite Hjson.
  destruct (marketplace_is_empty doc); [done|].
  destruct (validate_marketplace_schema _); [|done].
  intros _. simpl. eexists _, _. split_and!; [done|done|].
  apply merge_plugins_names. split; [done|]. right.
  apply list_elem_of_fmap. eexists. split; [|apply list_elem_of_fmap_2].
  2: { apply list_elem_of_filter. split; [exact Hmd|exact Hin]. }
  done.
Qed.

(** C9: without [--force], a package of the list whose target folder
    exists with a valid manifest is skipped (its folder is left as it is
    and the [skipped] counter grows), it is validated in place, and the
    batch that [fetch_all_skills] returns for the registry update holds its
    id; when the ids of the list are pairwise different the batch entry is
    the metadata normalised from the manifest on disk. *)
Theorem C9_skipped_package_joins_the_batch
    (dry_run : bool) (out : option string) (skills : list skill_config)
    (st : state) (s : skill_config) (entry : fs_entry) :
  s ∈ skills ->
  base_dir st !! target_folder s = Some entry ->
  valid (validate_skill frontmatter_load
           (target_path out (target_folder s)) (Some entry)) = true ->
  let r :=
    fetch_all_skills frontmatter_load github mkdtemp false dry_run
                     out skills st in
  base_dir r.1 !! target_folder s = Some entry /\
  skipped (run_stats st) < skipped (run_stats r.1) /\
  is_Some (r.2 !! id s) /\
  (NoDup (id <$> skills) ->
   r.2 !! id s
   = Some (normalize_skill_metadata s
             (metadata (validate_skill frontmatter_load
                (target_path out (target_folder s)) (Some entry))))).
Proof.
  intros Hin Hex Hvalid r. subst r. unfold fetch_all_skills. split.
  - by apply fetch_each_keeps_existing.
  - set (st0 := State _ _ _).
    by apply (fetch_each_registers_skipped frontmatter_load github mkdtemp
                dry_run out skills st0 ∅ s entry).
Qed.

(** C2, as amended: when the package loop processes the two packages A and
    B without [--force], A's target folder existing and B's not, and B's
    fetch delivering a non-empty manifest, then A is skipped and its folder
    is untouched, B's folder holds what was fetched and B is in the batch
    for the registry, and the counters are total 2, successful 1, failed 0,
    skipped 1.  The entry point [run], given the same configuration, stops
    at its conflict check with exit code 1 and changes nothing. *)
Theorem C2_skip_then_fetch
    (out : option string) (A B : skill_config) (st : state)
    (entry_a : fs_entry) (manifest_b : string) :
  base_dir st !! target_folder A = Some entry_a ->
  base_dir st !! target_folder B = None ->
  github B = Fetched (Some manifest_b) -> manifest_b ≠ "" ->
  run_stats st = initial_stats ->
  let r :=
    fetch_all_skills frontmatter_load github mkdtemp false false
                     out [A; B] st in
  run_stats r.1 = Stats 2 1 0 1 [] /\
  base_dir r.1
  = <[target_folder B := Directory (Some manifest_b)]> (base_dir st) /\
  base_dir r.1 !! target_folder A = Some entry_a /\
  is_Some (r.2 !! id B) /\
  run frontmatter_load github mkdtemp false false
      (Some (Config out [A; B])) true None st = (st, 1).
Proof.
  intros HA HB Hgh Hne Hstats r.
  assert (Hvalid : forall path,
    valid (validate_skill frontmatter_load path
             (Some (Directory (Some manifest_b)))) = true).
  { intros path. apply validate_skill_valid. eauto. }
  assert (Hr : run_stats r.1 = Stats 2 1 0 1 [] /\
               base_dir r.1
               = <[target_folder B := Directory (Some manifest_b)]>
                   (base_dir st) /\
               is_Some (r.2 !! id B)).
  { subst r. unfold fetch_all_skills. rewrite Hstats.
    erewrite fetch_each_step by (by eapply fetch_skill_skips).
    erewrite fetch_each_step
      by (by eapply (fetch_skill_fetches frontmatter_load github mkdtemp)).
    cbn [fetch_each fst snd base_dir run_stats total successful failed
         skipped stat_errors initial_stats length].
    rewrite lookup_insert_eq, Hvalid. split_and!; [done|done|].
    rewrite lookup_insert_eq. eauto. }
  destruct Hr as (Hs & Hd & Hm). split_and!; try done.
  - rewrite Hd. rewrite lookup_insert_ne; [done|]. intros Heq. congruence.
  - assert (check_conflicts false st [A; B] = [target_folder A]) as Hc.
    { cbn [check_conflicts]. unfold check_name_conflicts.
      by rewrite HA, HB. }
    unfold run. cbn [negb skills default]. by rewrite Hc.
Qed.
End orchestrator_claims.

(** * The statements at concrete inputs *)

Section concrete.
Import utils skill_processor marketplace_updater github_fetcher.
Import fetch_external_skills.

(** C5: a list whose only entry has the empty name; merging it with itself
    yields the empty list, so the sets of names differ. *)
Lemma C5_counterexample :
  ~ (forall o : option string,
        o ∈ plugin_name <$> merge_plugins [samples.nameless] [samples.nameless]
        <-> o ∈ plugin_name <$> [samples.nameless]).
Proof.
  intros H. destruct (H (Some "")) as [_ Hback].
  assert (Hin : Some "" ∈ plugin_name <$> [samples.nameless]) by (by left).
  apply Hback in Hin. vm_compute in Hin. by apply elem_of_nil in Hin.
Qed.

Lemma C5_witness :
  samples.pdf_new ∈ [samples.pdf_old; samples.pdf_new].
Proof.
  apply (proj2 (proj2 (C5_merge_idempotent
                         [samples.pdf_old; samples.pdf_new]
                         [samples.pdf_incoming]))).
  - vm_compute. left.
  - exists samples.pdf_old. split; [left|reflexivity].
Defined.

Lemma C10_witness :
  samples.pdf_new
    ∈ merge_plugins [samples.pdf_old; samples.pdf_new] [samples.nameless] /\
  forall p,
    p ∈ merge_plugins [samples.pdf_old; samples.pdf_new] [samples.nameless] ->
    plugin_name p = Some "pdf-tools" -> p = samples.pdf_new.
Proof.
  apply (proj2 (C10_merge_drops_unnamed_later_existing_wins
                  [samples.pdf_old; samples.pdf_new] [samples.nameless])
               [samples.pdf_old] samples.pdf_new [] "pdf-tools").
  - reflexivity.
  - reflexivity.
  - discriminate.
  - intros q Hq. by apply elem_of_nil in Hq.
Defined.

(** C7: the path [/obra/superpowers/tree] has [tree] at index 2 and no
    segment after it; the resolver answers branch [main]. *)
Lemma C7_counterexample :
  let parts := path_parts simple_url_path samples.url_ending_in_tree in
  parse_github_url simple_url_path samples.url_ending_in_tree
  = inr ("obra", "superpowers", "main", None) /\
  ~ (parts !! 2 = Some "tree" ->
     exists owner repo branch subfolder_path,
       parse_github_url simple_url_path samples.url_ending_in_tree
       = inr (owner, repo, branch, subfolder_path) /\
       parts !! 3 = Some branch).
Proof.
  split; [reflexivity|]. intros H.
  destruct H as (owner & repo & branch & sub & _ & Hb); [reflexivity|].
  vm_compute in Hb. discriminate.
Qed.

Lemma C7_witness :
  parse_github_url simple_url_path samples.url_with_subpath
  = inr ("obra", "superpowers", "main", Some "skills/brainstorming").
Proof.
  destruct (proj2 (C7_parse_github_url_resolves simple_url_path
                     samples.url_with_subpath))
    as (owner & repo & branch & sub & -> & Ho & Hr & Htree & _).
  - vm_compute. lia.
  - destruct Htree as [Hb ->]; [split; [reflexivity|vm_compute; lia]|].
    vm_compute in Ho, Hr, Hb. by simplify_eq.
Defined.

Lemma C3_witness :
  let result :=
    validate_skill reject_headers "/tmp/skill_fetch_brainstorming_0"
                   (Some (Directory (Some samples.broken_manifest))) in
  valid result = true /\ errors result = [] /\ metadata result = Some ∅.
Proof.
  apply (C3_unparsable_header_is_accepted reject_headers).
  - reflexivity.
  - discriminate.
Defined.
End concrete.

Section concrete_runs.
Import skill_processor marketplace_updater fetch_external_skills.

(** C2: the folder of the first package exists, the second package fetches
    and validates; neither the entry point nor the package loop ends with
    total 2, successful 2, failed 0. *)
Lemma C2_counterexample :
  let config := Config None [samples.skill_a; samples.skill_b] in
  let after_run :=
    (run samples.load samples.github samples.mkdtemp false false
         (Some config) true None samples.state_with_a).1 in
  let after_loop :=
    (fetch_all_skills samples.load samples.github samples.mkdtemp false false
                      None [samples.skill_a; samples.skill_b]
                      samples.state_with_a).1 in
  run_stats after_run = Stats 0 0 0 0 [] /\
  run_stats after_loop = Stats 2 1 0 1 [] /\
  ~ (total (run_stats after_run) = 2 /\
     successful (run_stats after_run) = 2 /\
     failed (run_stats after_run) = 0) /\
  ~ (total (run_stats after_loop) = 2 /\
     successful (run_stats after_loop) = 2 /\
     failed (run_stats after_loop) = 0).
Proof.
  assert (Hrun :
    run_stats (run samples.load samples.github samples.mkdtemp false false
                   (Some (Config None [samples.skill_a; samples.skill_b]))
                   true None samples.state_with_a).1 = Stats 0 0 0 0 [])
    by (vm_compute; reflexivity).
  assert (Hloop :
    run_stats (fetch_all_skills samples.load samples.github samples.mkdtemp
                 false false None [samples.skill_a; samples.skill_b]
                 samples.state_with_a).1 = Stats 2 1 0 1 [])
    by (vm_compute; reflexivity).
  intros config after_run after_loop. subst config after_run after_loop.
  rewrite Hrun, Hloop. simpl. split_and!; try done.
  - intros [? _]. done.
  - intros (_ & ? & _). done.
Qed.

Lemma C2_witness :
  let r :=
    fetch_all_skills samples.load samples.github samples.mkdtemp false false
                     None [samples.skill_a; samples.skill_b]
                     samples.state_with_a in
  run_stats r.1 = Stats 2 1 0 1 [] /\
  base_dir r.1
  = <[ "brainstorming" := Directory (Some samples.manifest) ]>
      (base_dir samples.state_with_a) /\
  base_dir r.1 !! "epub-skill" = Some (Directory (Some samples.manifest)) /\
  is_Some (r.2 !! "brainstorming") /\
  run samples.load samples.github samples.mkdtemp false false
      (Some (Config None [samples.skill_a; samples.skill_b])) true None
      samples.state_with_a
  = (samples.state_with_a, 1).
Proof.
  apply (C2_skip_then_fetch samples.load samples.github samples.mkdtemp None
           samples.skill_a samples.skill_b samples.state_with_a
           (Directory (Some samples.manifest)) samples.manifest).
  - reflexivity.
  - reflexivity.
  - reflexivity.
  - discriminate.
  - reflexivity.
Defined.

Lemma C9_witness :
  let r :=
    fetch_all_skills samples.load samples.github samples.mkdtemp false false
                     None [samples.skill_a; samples.skill_b]
                     samples.state_with_a in
  base_dir r.1 !! "epub-skill" = Some (Directory (Some samples.manifest)) /\
  0 < skipped (run_stats r.1) /\
  is_Some (r.2 !! "epub") /\
  (NoDup (id <$> [samples.skill_a; samples.skill_b]) ->
   r.2 !! "epub"
   = Some (normalize_skill_metadata samples.skill_a
             (metadata (validate_skill samples.load "./epub-skill"
                          (Some (Directory (Some samples.manifest))))))).
Proof.
  apply (C9_skipped_package_joins_the_batch samples.load samples.github
           samples.mkdtemp false None [samples.skill_a; samples.skill_b]
           samples.state_with_a samples.skill_a
           (Directory (Some samples.manifest))).
  - left.
  - reflexivity.
  - reflexivity.
Defined.
End concrete_runs.

(** ** github_fetcher: the throttle *)

Section throttle_wait.
Import github_fetcher.

(** With fewer than ten requests left the call sleeps until five seconds
    after the reset time, and at least five seconds. *)
Lemma wait_for_rate_limit_reset_low (left_over reset_time now : Z) :
  (left_over < 10)%Z ->
  wait_for_rate_limit_reset
    (Some (RateLimit (Some left_over) (Some reset_time))) now
  = Some (Z.max 0 (reset_time - now) + 5)%Z.
Proof. intros Hlow. unfold wait_for_rate_limit_reset. simpl. by case_decide. Qed.

Lemma wait_for_rate_limit_reset_unknown (now : Z) :
  wait_for_rate_limit_reset None now = None.
Proof. reflexivity. Qed.
End throttle_wait.

(** * Further properties *)

(** ** More on merge_plugins *)

Section merge_more.
Import marketplace_updater.
Implicit Types (p q e : plugin) (n : string).


Lemma merge_lookup_absorbs n A B C :
  n ≠ "" ->
  (forall q, q ∈ C -> q ∈ A \/ q ∈ B) ->
  merge_lookup n (merge_plugins A B) C = merge_lookup n A B.
Proof.
  intros Hn HC. destruct (merge_lookup n A B) as [p|] eqn:Hl.
  - assert (Hin : p ∈ merge_plugins A B) by (apply elem_of_merge_plugins; eauto).
    pose proof (merge_lookup_Some _ _ _ _ Hl) as [Hp _].
    unfold merge_lookup at 1.
    destruct (last_named n (merge_plugins A B)) as [q|] eqn:Hq.
    + apply last_named_Some in Hq as [Hqin Hqn]. f_equal.
      by apply (merge_lookup_unique q p n A B).
    + rewrite last_named_None in Hq. by destruct (Hq p Hin).
  - unfold merge_lookup at 1.
    destruct (last_named n (merge_plugins A B)) as [q|] eqn:Hq.
    + apply last_named_Some in Hq as [Hqin Hqn].
      apply elem_of_merge_plugins in Hqin as (m & Hm & Hlm).
      pose proof (merge_lookup_Some _ _ _ _ Hlm) as [Hqm _].
      assert (m = n) as -> by congruence. congruence.
    + unfold merge_lookup in Hl. destruct (last_named n A) eqn:HA; [done|].
      rewrite last_named_None in HA. rewrite first_named_None in Hl.
      apply first_named_None. intros q Hq'.
      destruct (HC q Hq'); [by apply HA|by apply Hl].
Qed.


(** Merging entries of the two lists into their merge once more changes
    nothing: a repeated batch is absorbed. *)
Theorem merge_plugins_absorbs (A B C : list plugin) :
  (forall q, q ∈ C -> q ∈ A \/ q ∈ B) ->
  merge_plugins (merge_plugins A B) C = merge_plugins A B.
Proof.
  intros HC.
  apply (StronglySorted_strict_ext name_key); try apply merge_plugins_strict.
  intros p. rewrite !elem_of_merge_plugins.
  split; intros (n & Hn & Hl); exists n; split; try done.
  - by rewrite <- (merge_lookup_absorbs n A B C).
  - by rewrite merge_lookup_absorbs.
Qed.

End merge_more.

(** ** The registry update *)

Section registry_facts.
Import skill_processor marketplace_updater.
Implicit Types (files : registry_files) (doc : marketplace).

Lemma merge_absorbs_again (A B : list plugin) :
  merge_plugins (merge_plugins A B) B = merge_plugins A B.
Proof.
  apply (StronglySorted_strict_ext name_key); try apply merge_plugins_strict.
  intros p. rewrite !elem_of_merge_plugins.
  split; intros (n & Hn & Hl); exists n; split; try done.
  - rewrite <- (merge_lookup_absorbs n A B B); [done|done|auto].
  - rewrite merge_lookup_absorbs; [done|done|auto].
Qed.

Lemma create_marketplace_entry_required c m :
  plugin_has_required (create_marketplace_entry c m) = true.
Proof.
  unfold plugin_has_required, create_marketplace_entry. done.
Qed.

Lemma create_marketplace_entry_name c m :
  plugin_name (create_marketplace_entry c m) = Some (id c).
Proof. reflexivity. Qed.

Lemma schema_valid_not_empty doc :
  validate_marketplace_schema doc = true -> marketplace_is_empty doc = false.
Proof.
  unfold validate_marketplace_schema, marketplace_is_empty.
  intros H. apply bool_decide_eq_false_2. intros ->. done.
Qed.

Lemma schema_valid_plugins doc :
  validate_marketplace_schema doc = true ->
  exists plugins,
    mp_plugins doc = Some plugins /\
    forallb plugin_has_required plugins = true.
Proof.
  unfold validate_marketplace_schema. rewrite !andb_true_iff.
  intros [_ H]. destruct (mp_plugins doc) as [plugins|]; [eauto|done].
Qed.

Lemma schema_valid_replace doc plugins :
  validate_marketplace_schema doc = true ->
  forallb plugin_has_required plugins = true ->
  validate_marketplace_schema
    (Marketplace (mp_name doc) (mp_version doc) (mp_description doc)
                 (mp_owner doc) (Some plugins)) = true.
Proof.
  unfold validate_marketplace_schema. rewrite !andb_true_iff. simpl.
  intros [[[[? ?] ?] ?] _] ?. done.
Qed.

Lemma merged_required existing configs batch :
  forallb plugin_has_required existing = true ->
  forallb plugin_has_required
    (merge_plugins existing (new_entries configs batch)) = true.
Proof.
  rewrite !forallb_forall. intros Hex p Hp%list_elem_of_In.
  apply elem_of_merge_plugins in Hp as (n & Hn & Hl).
  apply merge_lookup_Some in Hl as [_ [Hin|Hin]].
  - by apply Hex, list_elem_of_In.
  - apply list_elem_of_fmap in Hin as (c & -> & _).
    apply create_marketplace_entry_required.
Qed.

Lemma update_valid_unfold files doc configs batch :
  marketplace_json files = Some doc ->
  validate_marketplace_schema doc = true ->
  update_marketplace_with_skills files configs batch
  = (RegistryFiles
       (Some (Marketplace (mp_name doc) (mp_version doc) (mp_description doc)
                (mp_owner doc)
                (Some (merge_plugins (default [] (mp_plugins doc))
                                     (new_entries configs batch)))))
       (Some doc), true).
Proof.
  intros Hjson Hvalid.
  unfold update_marketplace_with_skills, load_marketplace. rewrite Hjson.
  rewrite (schema_valid_not_empty doc Hvalid).
  destruct (schema_valid_plugins doc Hvalid) as (plugins & Hp & Hreq).
  fold (new_entries configs batch).
  rewrite schema_valid_replace;
    [|done|rewrite Hp; by apply merged_required].
  unfold save_marketplace. by rewrite Hjson.
Qed.

Lemma update_success_inv files configs batch :
  (update_marketplace_with_skills files configs batch).2 = true ->
  exists doc,
    marketplace_json files = Some doc /\
    update_marketplace_with_skills files configs batch
    = (RegistryFiles
         (Some (Marketplace (mp_name doc) (mp_version doc)
                  (mp_description doc) (mp_owner doc)
                  (Some (merge_plugins (default [] (mp_plugins doc))
                                       (new_entries configs batch)))))
         (Some doc), true) /\
    validate_marketplace_schema
      (Marketplace (mp_name doc) (mp_version doc) (mp_description doc)
         (mp_owner doc)
         (Some (merge_plugins (default [] (mp_plugins doc))
                              (new_entries configs batch)))) = true.
Proof.
  unfold update_marketplace_with_skills, load_marketplace.
  destruct (marketplace_json files) as [doc|] eqn:Hjson; [|done].
  destruct (marketplace_is_empty doc); [done|].
  fold (new_entries configs batch).
  destruct (validate_marketplace_schema _) eqn:Hv; [|done].
  intros _. exists doc. split_and!; [done| |done].
  unfold save_marketplace. by rewrite Hjson.
Qed.
End registry_facts.

Section registry_properties.
Import skill_processor marketplace_updater.
Implicit Types (files : registry_files) (doc : marketplace).

Lemma find_by_name_first_named n l : find_by_name n l = first_named n l.
Proof. induction l as [|p l IH]; simpl; [done|]. by rewrite IH. Qed.

Lemma first_named_merge n A B :
  first_named n (merge_plugins A B)
  = if decide (n = "") then None else merge_lookup n A B.
Proof.
  case_decide as Hn.
  - subst n. apply first_named_None. intros p Hp Hname.
    apply merge_plugins_named in Hp as [Hp Hne]. congruence.
  - destruct (merge_lookup n A B) as [p|] eqn:Hl.
    + assert (Hin : p ∈ merge_plugins A B)
        by (apply elem_of_merge_plugins; eauto).
      pose proof (merge_lookup_Some _ _ _ _ Hl) as [Hp _].
      destruct (first_named n (merge_plugins A B)) as [q|] eqn:Hq.
      * apply first_named_Some in Hq as [Hqin Hqn]. f_equal.
        by apply (merge_lookup_unique q p n A B).
      * rewrite first_named_None in Hq. by destruct (Hq p Hin).
    + apply first_named_None. intros q Hqin Hqn.
      apply elem_of_merge_plugins in Hqin as (m & Hm & Hlm).
      pose proof (merge_lookup_Some _ _ _ _ Hlm) as [Hqm _].
      assert (m = n) as -> by congruence. congruence.
Qed.

Lemma truthy_names_merge A B :
  omap (fun p => if py.truthy (plugin_name p) then plugin_name p else None)
       (merge_plugins A B)
  = name_key <$> merge_plugins A B.
Proof.
  assert (H : Forall (fun p => plugin_name p = Some (name_key p) /\
                               name_key p ≠ "") (merge_plugins A B)).
  { apply Forall_forall. intros p Hp. by apply merge_plugins_named in Hp. }
  induction H as [|p l [Hp Hne] _ IH]; [done|].
  cbn [omap list_omap fmap list_fmap]. rewrite Hp.
  apply truthy_Some in Hne. rewrite Hne. simpl. f_equal. exact IH.
Qed.



(** Running a successful update again with the same configurations and
    batch writes the same document: the second run reports success, and
    both the registry file and the backup then hold the document of the
    first run. *)
Theorem update_twice files configs (batch : gmap string normalized) :
  let r := update_marketplace_with_skills files configs batch in
  r.2 = true ->
  update_marketplace_with_skills r.1 configs batch
  = (RegistryFiles (marketplace_json r.1) (marketplace_json r.1), true).
Proof.
  intros r Hok. subst r.
  destruct (update_success_inv files configs batch Hok)
    as (doc & Hjson & -> & Hv).
  cbn [fst marketplace_json].
  erewrite update_valid_unfold; [|reflexivity|exact Hv].
  cbn [mp_name mp_version mp_description mp_owner mp_plugins from_option Datatypes.id].
  by rewrite merge_absorbs_again.
Qed.

(** After a successful update, looking a non-empty name up in the registry
    returns the entry that the merge kept under that name: the last
    existing entry with that name if there is one, otherwise the first new
    entry with that name.  The empty name is not found. *)
Theorem get_plugin_by_name_after_update files doc configs
    (batch : gmap string normalized) (n : string) :
  marketplace_json files = Some doc ->
  (update_marketplace_with_skills files configs batch).2 = true ->
  get_plugin_by_name (update_marketplace_with_skills files configs batch).1 n
  = if decide (n = "") then None
    else merge_lookup n (default [] (mp_plugins doc))
                      (new_entries configs batch).
Proof.
  intros Hjson Hok.
  destruct (update_success_inv files configs batch Hok)
    as (doc0 & Hjson0 & -> & Hv).
  assert (doc0 = doc) as -> by congruence.
  unfold get_plugin_by_name, load_marketplace. cbn [fst marketplace_json].
  rewrite (schema_valid_not_empty _ Hv).
  cbn [mp_plugins from_option Datatypes.id].
  by rewrite find_by_name_first_named, first_named_merge.
Qed.

(** After a successful update the list of plugin names of the registry has
    no repetition, is strictly increasing, keeps every name it had before,
    and holds the id of every configuration of the update that is not
    empty. *)
Theorem list_marketplace_plugins_after_update files configs
    (batch : gmap string normalized) :
  let r := update_marketplace_with_skills files configs batch in
  r.2 = true ->
  NoDup (list_marketplace_plugins r.1) /\
  StronglySorted str_lt (list_marketplace_plugins r.1) /\
  (forall n, n ∈ list_marketplace_plugins files ->
             n ∈ list_marketplace_plugins r.1) /\
  (forall c, c ∈ configs -> id c ≠ "" ->
             id c ∈ list_marketplace_plugins r.1).
Proof.
  intros r Hok. subst r.
  destruct (update_success_inv files configs batch Hok)
    as (doc & Hjson & -> & Hv).
  assert (Hnew : list_marketplace_plugins
            (RegistryFiles
               (Some (Marketplace (mp_name doc) (mp_version doc)
                        (mp_description doc) (mp_owner doc)
                        (Some (merge_plugins (default [] (mp_plugins doc))
                                 (new_entries configs batch)))))
               (Some doc))
          = name_key <$> merge_plugins (default [] (mp_plugins doc))
                                       (new_entries configs batch)).
  { unfold list_marketplace_plugins, load_marketplace.
    cbn [marketplace_json]. rewrite (schema_valid_not_empty _ Hv).
    cbn [mp_plugins from_option Datatypes.id]. apply truthy_names_merge. }
  cbn [fst]. rewrite Hnew.
  assert (Hmem : forall n, n ≠ "" ->
            (n ∈ name_key <$> merge_plugins (default [] (mp_plugins doc))
                                (new_entries configs batch) <->
             Some n ∈ plugin_name <$> default [] (mp_plugins doc) \/
             Some n ∈ plugin_name <$> new_entries configs batch)).
  { intros n Hn. split.
    - intros (p & -> & Hp)%list_elem_of_fmap.
      apply (merge_plugins_names (name_key p)).
      apply list_elem_of_fmap. exists p. split; [|done].
      by apply merge_plugins_named in Hp as [-> _].
    - intros Hin.
      assert (Hm : Some n ∈ plugin_name <$>
                merge_plugins (default [] (mp_plugins doc))
                              (new_entries configs batch))
        by (by apply merge_plugins_names).
      apply list_elem_of_fmap in Hm as (p & Hp & Hpin).
      apply list_elem_of_fmap. exists p. split; [|done].
      unfold name_key. by rewrite <- Hp. }
  split_and!.
  - apply merge_plugins_keys_NoDup.
  - apply (StronglySorted_fmap _ (key_lt name_key)); [done|].
    apply merge_plugins_strict.
  - intros n. unfold list_marketplace_plugins, load_marketplace.
    rewrite Hjson. destruct (marketplace_is_empty doc);
      [by intros ?%elem_of_nil|].
    intros (p & Hp & Hf)%list_elem_of_omap.
    destruct (py.truthy (plugin_name p)) eqn:Ht; [|done].
    rewrite Hf in Ht. apply truthy_Some in Ht.
    apply Hmem; [done|]. left. apply list_elem_of_fmap. by exists p.
  - intros c Hc Hid. apply Hmem; [done|]. right.
    apply list_elem_of_fmap. exists (create_marketplace_entry c (batch !! id c)).
    split; [done|]. unfold new_entries. apply list_elem_of_fmap. by exists c.
Qed.
End registry_properties.

(** ** More on the validator *)

Section validator_properties.
Import skill_processor.
Variable frontmatter_load : string -> option (gmap string string).

#[local] Abbreviation validate := (validate_skill frontmatter_load).

Lemma validate_skill_manifest skill_path skill_md :
  skill_md ≠ "" ->
  exists warnings,
    validate skill_path (Some (Directory (Some skill_md)))
    = Validation true [] warnings
        (Some (parse_skill_frontmatter frontmatter_load skill_md)).
Proof.
  intros Hne. unfold validate_skill.
  case_decide as Hsize; [by apply string_length_zero in Hsize|].
  by eexists.
Qed.

(** A result is valid exactly when it carries no error, and an invalid
    result carries exactly one error.  The metadata is missing exactly when
    no [SKILL.md] was read. *)
Theorem validate_skill_errors (skill_path : string)
    (skill_dir : option fs_entry) :
  let r := validate skill_path skill_dir in
  (valid r = true <-> errors r = []) /\
  (valid r = false -> exists e, errors r = [e]) /\
  (metadata r = None <->
   forall skill_md, skill_dir ≠ Some (Directory (Some skill_md))).
Proof.
  destruct skill_dir as [[|[skill_md|]]|]; simpl;
    try (split_and!; [split; done|by eexists|split; [done|by intros _]]).
  case_decide as Hsize; simpl.
  - split_and!; [split; done|by eexists|].
    split; [done|]. intros Hno. by destruct (Hno skill_md).
  - split_and!; [done|done|].
    split; [done|]. intros Hno. by destruct (Hno skill_md).
Qed.

(** The validator accepts a path exactly when it is a directory that holds
    a [SKILL.md] of at least one byte; what the header says plays no part. *)
Theorem validate_skill_accepts (skill_path : string)
    (skill_dir : option fs_entry) :
  valid (validate skill_path skill_dir) = true <->
  exists skill_md,
    skill_dir = Some (Directory (Some skill_md)) /\
    0 < String.length skill_md.
Proof.
  rewrite validate_skill_valid. split; intros (skill_md & -> & Hmd);
    exists skill_md; (split; [done|]).
  - destruct skill_md; simpl; [done|lia].
  - intros ->. simpl in Hmd. lia.
Qed.

(** A manifest passes without any warning exactly when its header has a
    non-empty [name] and a non-empty [description] and the file has at
    least 50 bytes; there are never more than three warnings. *)
Theorem validate_skill_clean_pass (skill_path skill_md : string) :
  skill_md ≠ "" ->
  let r := validate skill_path (Some (Directory (Some skill_md))) in
  let header := parse_skill_frontmatter frontmatter_load skill_md in
  (warnings r = [] <->
   py.truthy (header !! "name") = true /\
   py.truthy (header !! "description") = true /\
   50 <= String.length skill_md) /\
  length (warnings r) <= 3.
Proof.
  intros Hne. simpl.
  case_decide as Hsize; [by apply string_length_zero in Hsize|].
  destruct (py.truthy (_ !! "name")), (py.truthy (_ !! "description"));
    case_decide; simpl; (split; [split; [try done|]|lia]);
    try (intros (? & ? & ?); first [done|lia]).
  intros _. split_and!; [done|done|lia].
Qed.

(** A header with a name and without a description, in a file of at least
    50 bytes, is accepted with exactly one warning, about the description. *)
Theorem validate_skill_missing_description
    (skill_path skill_md : string) (header : gmap string string) :
  frontmatter_load skill_md = Some header ->
  py.truthy (header !! "name") = true ->
  py.truthy (header !! "description") = false ->
  50 <= String.length skill_md ->
  validate skill_path (Some (Directory (Some skill_md)))
  = Validation true [] ["Missing 'description' in frontmatter"] (Some header).
Proof.
  intros Hload Hname Hdesc Hsize. unfold validate_skill.
  unfold parse_skill_frontmatter. rewrite Hload, Hname, Hdesc.
  case_decide; [lia|]. case_decide; [lia|]. done.
Qed.
End validator_properties.

Section validate_all_properties.
Import skill_processor.
Variable frontmatter_load : string -> option (gmap string string).

Lemma foldl_insert_lookup {V} (f : string -> V) names (res : gmap string V) k :
  foldl (fun results name => <[name := f name]> results) res names !! k
  = if decide (k ∈ names) then Some (f k) else res !! k.
Proof.
  revert res. induction names as [|a names IH]; intros res; cbn [foldl].
  - destruct (decide (k ∈ [])) as [Hin|]; [by apply elem_of_nil in Hin|done].
  - rewrite IH. destruct (decide (k ∈ names)) as [Hin|Hin].
    + rewrite decide_True by (by right). done.
    + destruct (decide (a = k)) as [->|Hne].
      * rewrite decide_True by (by left). apply lookup_insert_eq.
      * rewrite lookup_insert_ne by done.
        rewrite decide_False; [done|].
        rewrite elem_of_cons. intros [Heq|Hk]; [by subst|done].
Qed.

Lemma get_existing_skills_spec_aux (dir : gmap string fs_entry) :
  get_existing_skills None = [] /\
  NoDup (get_existing_skills (Some dir)) /\
  forall name,
    name ∈ get_existing_skills (Some dir) <->
    String.prefix "." name = false /\
    exists skill_md, dir !! name = Some (Directory (Some skill_md)).
Proof.
  split_and!; [done| |].
  - unfold get_existing_skills.
    apply NoDup_fmap_fst.
    + intros k v1 v2 [_ H1%elem_of_map_to_list]%list_elem_of_filter
                     [_ H2%elem_of_map_to_list]%list_elem_of_filter.
      congruence.
    + apply NoDup_filter, NoDup_map_to_list.
  - intros name. unfold get_existing_skills.
    rewrite list_elem_of_fmap. split.
    + intros ([k e] & -> & [Hskill Hin%elem_of_map_to_list]%list_elem_of_filter).
      simpl in *. destruct e as [|[skill_md|]]; simpl in Hskill; try done.
      split; [by apply negb_true_iff|eauto].
    + intros [Hdot [skill_md Hlook]].
      exists (name, Directory (Some skill_md)). split; [done|].
      apply list_elem_of_filter. split; [|by apply elem_of_map_to_list].
      simpl. by rewrite Hdot.
Qed.

(** [get_existing_skills] lists, each once, the names that do not start
    with a dot of the directories that hold a [SKILL.md]; a base directory
    that does not exist has no skills. *)
Theorem get_existing_skills_spec (dir : gmap string fs_entry) :
  get_existing_skills None = [] /\
  NoDup (get_existing_skills (Some dir)) /\
  forall name,
    name ∈ get_existing_skills (Some dir) <->
    String.prefix "." name = false /\
    exists skill_md, dir !! name = Some (Directory (Some skill_md)).
Proof. apply get_existing_skills_spec_aux. Qed.

(** With a list of names, [validate_all_skills] reports exactly those
    names, each with the result of validating the folder of that name; a
    name that is given twice is reported once. *)
Theorem validate_all_skills_named (skills_dir : string)
    (base_dir : option (gmap string fs_entry))
    (skill_names : list string) (k : string) :
  validate_all_skills frontmatter_load skills_dir base_dir (Some skill_names)
    !! k
  = if decide (k ∈ skill_names)
    then Some (validate_skill frontmatter_load (skills_dir +:+ "/" +:+ k)
                              (base_dir ≫= (.!! k)))
    else None.
Proof.
  unfold validate_all_skills. cbn [from_option Datatypes.id].
  rewrite (foldl_insert_lookup
             (fun name => validate_skill frontmatter_load
                            (skills_dir +:+ "/" +:+ name)
                            (base_dir ≫= (.!! name)))).
  by case_decide.
Qed.

(** Without a list of names, [validate_all_skills] reports exactly the
    existing skills, and it rejects exactly those whose [SKILL.md] is
    empty, with that one error. *)
Theorem validate_all_skills_default (skills_dir : string)
    (dir : gmap string fs_entry) (k : string) :
  let results :=
    validate_all_skills frontmatter_load skills_dir (Some dir) None in
  (is_Some (results !! k) <-> k ∈ get_existing_skills (Some dir)) /\
  forall r, results !! k = Some r ->
    (valid r = false <-> dir !! k = Some (Directory (Some ""))) /\
    (valid r = false -> errors r = ["SKILL.md is empty"]).
Proof.
  intros results. subst results. unfold validate_all_skills.
  cbn [from_option Datatypes.id].
  rewrite (foldl_insert_lookup
             (fun name => validate_skill frontmatter_load
                            (skills_dir +:+ "/" +:+ name)
                            (Some dir ≫= (.!! name)))).
  case_decide as Hin.
  - split; [split; [done|by eauto]|].
    intros r [= <-].
    apply (proj2 (proj2 (get_existing_skills_spec_aux dir))) in Hin.
    destruct Hin as [_ [skill_md Hlook]]. simpl. rewrite Hlook.
    destruct skill_md as [|a skill_md]; simpl.
    + split; [split; done|done].
    + split; [split; [done|by intros [= ?]]|done].
  - split; [split; [by intros [? ?]|done]|done].
Qed.
End validate_all_properties.

(** ** More on the orchestrator *)

Section orchestrator_more.
Import skill_processor marketplace_updater fetch_external_skills.
Variable frontmatter_load : string -> option (gmap string string).
Variable github : skill_config -> fetch_outcome.
Variable mkdtemp : string -> string.
Variables force dry_run : bool.

#[local] Abbreviation fetch_skill' :=
  (fetch_skill frontmatter_load github mkdtemp force dry_run).
#[local] Abbreviation fetch_each' :=
  (fetch_each frontmatter_load github mkdtemp force dry_run).

(** The four ways in which [fetch_skill] ends. *)
Lemma fetch_skill_cases s st :
  let st' := (fetch_skill' s st).1 in
  let ok := (fetch_skill' s st).2 in
  registry st' = registry st /\ total (run_stats st') = total (run_stats st) /\
  ((ok = true /\ force = false /\ is_Some (base_dir st !! target_folder s) /\
    base_dir st' = base_dir st /\
    successful (run_stats st') = successful (run_stats st) /\
    failed (run_stats st') = failed (run_stats st) /\
    skipped (run_stats st') = S (skipped (run_stats st)) /\
    stat_errors (run_stats st') = stat_errors (run_stats st)) \/
   (ok = true /\ dry_run = true /\ st' = st) \/
   (ok = false /\ dry_run = false /\
    base_dir st' = base_dir st /\
    successful (run_stats st') = successful (run_stats st) /\
    failed (run_stats st') = S (failed (run_stats st)) /\
    skipped (run_stats st') = skipped (run_stats st) /\
    exists msg,
      stat_errors (run_stats st') = stat_errors (run_stats st) ++ [msg]) \/
   (ok = true /\ dry_run = false /\
    (exists skill_md,
        github s = Fetched (Some skill_md) /\ skill_md ≠ "" /\
        base_dir st'
        = <[target_folder s := Directory (Some skill_md)]> (base_dir st)) /\
    successful (run_stats st') = S (successful (run_stats st)) /\
    failed (run_stats st') = failed (run_stats st) /\
    skipped (run_stats st') = skipped (run_stats st) /\
    stat_errors (run_stats st') = stat_errors (run_stats st))).
Proof.
  unfold fetch_skill, target_exists, record_failure.
  destruct (bool_decide (is_Some (base_dir st !! target_folder s))) eqn:Hex;
    destruct force; cbn [andb negb].
  2: { apply bool_decide_eq_true in Hex. simpl. split_and!; try done.
       left. split_and!; done. }
  all: destruct dry_run;
    [simpl; split_and!; try done; right; left; by destruct st|].
  all: destruct (github s) as [|skill_md] eqn:Hgh;
    [simpl; split_and!; try done; right; right; left; split_and!; eauto|].
  all: destruct (valid (validate_skill _ _ _)) eqn:Hv; cbn [negb];
    [|simpl; split_and!; try done; right; right; left; split_and!; eauto].
  all: apply validate_skill_valid in Hv as (md & [= ->] & Hne).
  all: simpl; split_and!; try done; right; right; right; split_and!; eauto.
Qed.


Lemma fetch_each_cons out s rest st md :
  fetch_each' out (s :: rest) st md
  = fetch_each' out rest (fetch_skill' s st).1
      (if (fetch_skill' s st).2
       then match base_dir (fetch_skill' s st).1 !! target_folder s with
            | Some entry =>
                if valid (validate_skill frontmatter_load
                            (target_path out (target_folder s)) (Some entry))
                then <[id s := normalize_skill_metadata s
                         (metadata (validate_skill frontmatter_load
                            (target_path out (target_folder s))
                            (Some entry)))]> md
                else md
            | None => md
            end
       else md).
Proof. cbn [fetch_each]. by destruct (fetch_skill' s st). Qed.

Lemma fetch_each_counters out skills st md :
  let s := run_stats st in
  let s' := run_stats (fetch_each' out skills st md).1 in
  total s' = total s /\
  successful s' + failed s' + skipped s'
  <= successful s + failed s + skipped s + length skills /\
  (dry_run = false ->
   successful s' + failed s' + skipped s'
   = successful s + failed s + skipped s + length skills) /\
  successful s <= successful s' /\ failed s <= failed s' /\
  skipped s <= skipped s' /\
  length (stat_errors s') + failed s = length (stat_errors s) + failed s' /\
  (force = true -> skipped s' = skipped s) /\
  (dry_run = true -> successful s' = successful s /\ failed s' = failed s).
Proof.
  revert st md. induction skills as [|x skills IH]; intros st md.
  { simpl. split_and!; try done; lia. }
  rewrite fetch_each_cons. cbn zeta in *.
  match goal with
  | |- context [fetch_each' out skills _ ?m] =>
      specialize (IH (fetch_skill' x st).1 m)
  end.
  destruct (fetch_skill_cases x st) as (_ & Htot & Hcase).
  destruct IH as (I1 & I2 & I3 & I4 & I5 & I6 & I7 & I8 & I9).
  cbn [length].
  destruct Hcase as [(_ & Hf & _ & _ & H1 & H2 & H3 & H4)
                    |[(_ & Hd & Hst)
                    |[(_ & Hd & _ & H1 & H2 & H3 & msg & H4)
                     |(_ & Hd & _ & H1 & H2 & H3 & H4)]]].
  - rewrite H1, H2, H3, H4 in *. split_and!; try lia.
    + intros Hd. specialize (I3 Hd). lia.
    + intros ?. congruence.
    + intros Hd. specialize (I9 Hd). lia.
  - rewrite Hst in *. split_and!; try lia.
    + intros ?. congruence.
    + intros Hfo. specialize (I8 Hfo). lia.
    + done.
  - rewrite H1, H2, H3, H4, ?length_app in *. simpl in *.
    split_and!; try lia.
    + intros Hd'. specialize (I3 Hd'). lia.
    + intros Hfo. specialize (I8 Hfo). lia.
    + intros ?. congruence.
  - rewrite H1, H2, H3, H4 in *. split_and!; try lia.
    + intros Hd'. specialize (I3 Hd'). lia.
    + intros Hfo. specialize (I8 Hfo). lia.
    + intros ?. congruence.
Qed.

(** After [fetch_all_skills], [total] is the number of packages; every
    package has been counted at most once as successful, failed or skipped,
    and exactly once outside dry-run mode; no counter has gone down; there
    is one more error message per new failure; with [--force] nothing is
    skipped; and a dry run counts no success and no failure. *)
Theorem fetch_all_skills_counters out skills st :
  let s := run_stats st in
  let s' :=
    run_stats (fetch_all_skills frontmatter_load github mkdtemp force
                                dry_run out skills st).1 in
  total s' = length skills /\
  successful s' + failed s' + skipped s'
  <= successful s + failed s + skipped s + length skills /\
  (dry_run = false ->
   successful s' + failed s' + skipped s'
   = successful s + failed s + skipped s + length skills) /\
  successful s <= successful s' /\ failed s <= failed s' /\
  skipped s <= skipped s' /\
  length (stat_errors s') + failed s = length (stat_errors s) + failed s' /\
  (force = true -> skipped s' = skipped s) /\
  (dry_run = true -> successful s' = successful s /\ failed s' = failed s).
Proof.
  unfold fetch_all_skills.
  set (st0 := State _ _ _).
  apply (fetch_each_counters out skills st0 ∅).
Qed.

(** What one call of [fetch_skill] does to the folders. *)
Lemma fetch_skill_disk s st :
  registry (fetch_skill' s st).1 = registry st /\
  (base_dir (fetch_skill' s st).1 = base_dir st \/
   dry_run = false /\
   exists skill_md,
     github s = Fetched (Some skill_md) /\ skill_md ≠ "" /\
     base_dir (fetch_skill' s st).1
     = <[target_folder s := Directory (Some skill_md)]> (base_dir st)).
Proof.
  destruct (fetch_skill_cases s st) as (Hreg & _ & Hcase). split; [done|].
  destruct Hcase as [(_ & _ & _ & ? & _)
                    |[(_ & _ & ->)
                    |[(_ & _ & ? & _)|(_ & ? & ? & _)]]]; auto.
Qed.

Lemma fetch_each_disk out skills st md t :
  let st' := (fetch_each' out skills st md).1 in
  registry st' = registry st /\
  (dry_run = true -> base_dir st' = base_dir st) /\
  (is_Some (base_dir st !! t) -> is_Some (base_dir st' !! t)) /\
  (forall e, base_dir st' !! t = Some e ->
     base_dir st !! t = Some e \/
     exists s skill_md,
       s ∈ skills /\ target_folder s = t /\
       github s = Fetched (Some skill_md) /\ skill_md ≠ "" /\
       e = Directory (Some skill_md)).
Proof.
  revert st md. induction skills as [|x skills IH]; intros st md.
  { simpl. split_and!; auto. }
  rewrite fetch_each_cons. cbn zeta in *.
  match goal with
  | |- context [fetch_each' out skills _ ?m] =>
      specialize (IH (fetch_skill' x st).1 m)
  end.
  destruct IH as (I1 & I2 & I3 & I4).
  destruct (fetch_skill_disk x st) as (Hreg & Hdisk).
  split_and!.
  - congruence.
  - intros Hd. rewrite (I2 Hd).
    destruct Hdisk as [?|[? _]]; [done|congruence].
  - intros Hsome. apply I3.
    destruct Hdisk as [->|(_ & md' & _ & _ & ->)]; [done|].
    rewrite lookup_insert. case_decide; eauto.
  - intros e He. destruct (I4 e He) as [Hold|(s & md' & Hs & ?)].
    + destruct Hdisk as [Heq|(_ & md' & Hgh & Hne & Heq)];
        rewrite Heq in Hold; [by left|].
      rewrite lookup_insert in Hold. case_decide as Ht.
      * injection Hold as <-. right. exists x, md'.
        split_and!; try done. by left.
      * by left.
    + right. exists s, md'. split; [by right|done].
Qed.


(** A folder with a non-empty manifest keeps one through [fetch_skill]. *)
Lemma fetch_skill_keeps_valid s st t :
  (exists txt, base_dir st !! t = Some (Directory (Some txt)) /\ txt ≠ "") ->
  exists txt,
    base_dir (fetch_skill' s st).1 !! t = Some (Directory (Some txt)) /\
    txt ≠ "".
Proof.
  intros (txt & Ht & Hne).
  destruct (fetch_skill_disk s st) as (_ & [->|(_ & md' & _ & Hmd & ->)]);
    [eauto|].
  rewrite lookup_insert. case_decide; eauto.
Qed.

Lemma fetch_each_keeps_valid out skills st md t :
  (exists txt, base_dir st !! t = Some (Directory (Some txt)) /\ txt ≠ "") ->
  exists txt,
    base_dir (fetch_each' out skills st md).1 !! t
    = Some (Directory (Some txt)) /\ txt ≠ "".
Proof.
  revert st md. induction skills as [|x skills IH]; intros st md Hv; [done|].
  rewrite fetch_each_cons. by apply IH, fetch_skill_keeps_valid.
Qed.

Lemma fetch_each_batch out (all skills : list skill_config) st md :
  (forall s, s ∈ skills -> s ∈ all) ->
  (forall k m, md !! k = Some m ->
     meta_name m = k /\
     exists s, s ∈ all /\ id s = k /\
       exists txt, base_dir st !! target_folder s
                   = Some (Directory (Some txt)) /\ txt ≠ "") ->
  forall k m, (fetch_each' out skills st md).2 !! k = Some m ->
    meta_name m = k /\
    exists s, s ∈ all /\ id s = k /\
      exists txt, base_dir (fetch_each' out skills st md).1 !! target_folder s
                  = Some (Directory (Some txt)) /\ txt ≠ "".
Proof.
  revert st md. induction skills as [|x skills IH]; intros st md Hall Hgood;
    [done|].
  rewrite fetch_each_cons. apply IH; [intros s Hs; apply Hall; by right|].
  assert (Hkeep : forall k m, md !! k = Some m ->
     meta_name m = k /\
     exists s, s ∈ all /\ id s = k /\
       exists txt, base_dir (fetch_skill' x st).1 !! target_folder s
                   = Some (Directory (Some txt)) /\ txt ≠ "").
  { intros k m Hk. destruct (Hgood k m Hk) as (Hn & s & Hs & Hid & Hv).
    split; [done|]. exists s. split_and!; [done|done|].
    by apply fetch_skill_keeps_valid. }
  destruct ((fetch_skill' x st).2); [|done].
  destruct (base_dir (fetch_skill' x st).1 !! target_folder x)
    as [entry|] eqn:Hentry; [|done].
  destruct (valid (validate_skill frontmatter_load _ (Some entry))) eqn:Hv;
    [|done].
  intros k m. rewrite lookup_insert. case_decide as Hk; [|by apply Hkeep].
  intros [= <-]. subst k. split; [done|]. exists x.
  split_and!; [apply Hall; by left|done|].
  apply validate_skill_valid in Hv as (txt & [= ->] & Hne). eauto.
Qed.

(** Every entry of the batch that [fetch_all_skills] returns is stored
    under the id of a package of the list, carries that id as its name,
    and the target folder of that package holds a non-empty [SKILL.md]
    when the loop ends. *)
Theorem fetch_all_skills_batch out skills st k m :
  (fetch_all_skills frontmatter_load github mkdtemp force dry_run
     out skills st).2 !! k = Some m ->
  meta_name m = k /\
  exists s, s ∈ skills /\ id s = k /\
    exists txt,
      base_dir (fetch_all_skills frontmatter_load github mkdtemp force
                                 dry_run out skills st).1 !! target_folder s
      = Some (Directory (Some txt)) /\ txt ≠ "".
Proof.
  unfold fetch_all_skills. set (st0 := State _ _ _).
  apply (fetch_each_batch out skills skills st0 ∅); [done|].
  intros k' m' Hk. by rewrite lookup_empty in Hk.
Qed.

Lemma check_conflicts_elem st skills t :
  t ∈ check_conflicts force st skills <->
  force = false /\
  exists s, s ∈ skills /\ target_folder s = t /\
            is_Some (base_dir st !! t).
Proof.
  induction skills as [|x skills IH]; cbn [check_conflicts].
  - split; [by intros ?%elem_of_nil|].
    by intros (_ & s & ?%elem_of_nil & _).
  - unfold check_name_conflicts.
    destruct (base_dir st !! target_folder x) as [entry|] eqn:Hx.
    + destruct force eqn:Hforce; cbn [negb].
      * rewrite IH. split; by intros [? _].
      * rewrite elem_of_cons, IH. split.
        -- intros [->|(_ & s & Hs & Ht & Hex)].
           ++ split; [done|]. exists x. split_and!; [by left|done|].
              rewrite Hx. eauto.
           ++ split; [done|]. exists s. split_and!; [by right|done|done].
        -- intros (_ & s & [->|Hs]%elem_of_cons & Ht & Hex); [by left|].
           right. split; [done|]. eauto.
    + rewrite IH. split.
      * intros (Hf & s & Hs & Ht & Hex). split; [done|].
        exists s. split_and!; [by right|done|done].
      * intros (Hf & s & [->|Hs]%elem_of_cons & Ht & Hex).
        -- rewrite <- Ht, Hx in Hex. by destruct Hex.
        -- split; [done|]. eauto.
Qed.

(** [check_conflicts] reports nothing with [--force]; without it, it
    reports exactly the target folders of the given packages that exist. *)
Theorem check_conflicts_spec st (skills : list skill_config) :
  (force = true -> check_conflicts force st skills = []) /\
  (force = false ->
   forall t, t ∈ check_conflicts force st skills <->
             exists s, s ∈ skills /\ target_folder s = t /\
                       is_Some (base_dir st !! t)).
Proof.
  split.
  - intros Hf. destruct (check_conflicts force st skills) as [|t l] eqn:Hc;
      [done|].
    assert (Hin : t ∈ check_conflicts force st skills)
      by (rewrite Hc; by left).
    apply check_conflicts_elem in Hin as [? _]. congruence.
  - intros Hf t. rewrite check_conflicts_elem. split; [by intros [_ ?]|done].
Qed.

Lemma update_marketplace_frame config st batch :
  base_dir (update_marketplace dry_run config st batch).1 = base_dir st /\
  run_stats (update_marketplace dry_run config st batch).1 = run_stats st.
Proof.
  unfold update_marketplace. destruct dry_run; [done|].
  destruct (marketplace_json (registry st)); [|done].
  by destruct (update_marketplace_with_skills _ _ _).
Qed.

(** Without [--force], [run] stops with exit code 1 and leaves everything
    as it is as soon as the target folder of one selected package exists. *)
Theorem run_stops_at_conflict config skill_ids st s :
  force = false ->
  s ∈ skills config ->
  match skill_ids with
  | Some ((_ :: _) as ids) => id s ∈ ids
  | _ => True
  end ->
  is_Some (base_dir st !! target_folder s) ->
  run frontmatter_load github mkdtemp force dry_run
      (Some config) true skill_ids st = (st, 1).
Proof.
  intros Hf Hs Hsel Hex. unfold run. cbn [negb].
  set (selected := match skill_ids with
                   | Some ((_ :: _) as ids) =>
                       Some (filter (fun s0 => id s0 ∈ ids) (skills config))
                   | _ => None
                   end).
  assert (Hin : s ∈ default (skills config) selected).
  { subst selected. destruct skill_ids as [[|i ids]|]; try done.
    cbn [from_option Datatypes.id]. by apply list_elem_of_filter. }
  assert (Hc : check_conflicts force st (default (skills config) selected)
               ≠ []).
  { intros Hnil.
    assert (Ht : target_folder s
                 ∈ check_conflicts force st (default (skills config) selected)).
    { apply check_conflicts_elem. split; [done|]. eauto. }
    rewrite Hnil in Ht. by apply elem_of_nil in Ht. }
  destruct selected as [[|y l]|] eqn:Hsel'.
  - by apply elem_of_nil in Hin.
  - rewrite bool_decide_eq_true_2 by done. by rewrite Hf.
  - rewrite bool_decide_eq_true_2 by done. by rewrite Hf.
Qed.


(** In dry-run mode [run] changes neither a folder nor the registry files,
    whatever the configuration and the remote side. *)
Theorem run_dry_run_is_pure config_file environment_ok skill_ids st :
  dry_run = true ->
  let r := run frontmatter_load github mkdtemp force dry_run
               config_file environment_ok skill_ids st in
  base_dir r.1 = base_dir st /\ registry r.1 = registry st.
Proof.
  intros Hdry. unfold run.
  destruct config_file as [config|]; [|done].
  destruct environment_ok; cbn [negb]; [|done].
  set (selected := match skill_ids with
                   | Some ((_ :: _) as ids) =>
                       Some (filter (fun s0 => id s0 ∈ ids) (skills config))
                   | _ => None
                   end).
  destruct selected as [[|y l]|]; [done| |].
  all: destruct (bool_decide _ && negb force); [done|].
  all: unfold fetch_all_skills;
    match goal with
    | |- context [fetch_each' ?o ?sk ?s0 ∅] =>
        destruct (fetch_each_disk o sk s0 ∅ "") as (Hreg & Hdir & _);
        specialize (Hdir Hdry);
        destruct (fetch_each' o sk s0 ∅) as [st1 batch]
    end.
  all: rewrite Hdry; cbn [negb]; rewrite !andb_false_r; simpl in *; done.
Qed.
End orchestrator_more.

(** ** More on the fetcher *)

Section subfolder_more.
Import github_fetcher.
Variables owner repo branch : string.

Lemma first_level_ok_spec remote :
  first_level_ok remote = true <->
  exists contents,
    remote = Listing contents /\
    forall name url, File name url None ∉ contents.
Proof.
  destruct remote as [|contents]; simpl.
  - split; [done|by intros (? & ? & _)].
  - rewrite forallb_forall. split.
    + intros Hall. exists contents. split; [done|].
      intros name url Hin%list_elem_of_In. by apply Hall in Hin.
    + intros (c & [= <-] & Hno) [name url [content|]|name sub|name type] Hin;
        try done.
      exfalso. by apply (Hno name url), list_elem_of_In.
Qed.

(** A failing traversal ends with the request that failed: nothing is
    requested, written or created after it. *)
Lemma fetch_contents_recursive_stops path target_dir remote :
  (fetch_contents_recursive owner repo branch path target_dir remote).2
  = false ->
  exists evs url,
    (fetch_contents_recursive owner repo branch path target_dir remote).1
    = evs ++ [SessionGet url].
Proof.
  destruct remote as [|contents]; simpl.
  { intros _. by exists [], (contents_url owner repo branch path). }
  match goal with
  | |- (let '(_, _) := ?loop contents in _).2 = _ -> _ =>
      assert (Hloop : forall items, (loop items).2 = false ->
                exists evs url, (loop items).1 = evs ++ [SessionGet url])
  end.
  { induction items as [|[name url [content|]|name sub|name type] items IH];
      simpl; try done.
    - destruct (_ items) as [evs ok] eqn:Hr in *. simpl in *.
      intros Hok. destruct (IH Hok) as (evs' & url' & ->).
      by exists (WaitForRateLimitReset :: SessionGet url ::
                 WriteBytes (path_join target_dir name) content :: evs'), url'.
    - intros _. by exists [WaitForRateLimitReset], url.
    - destruct (fetch_contents_recursive _ _ _ _ _ sub) as [sub_evs sub_ok].
      destruct (_ items) as [evs ok] eqn:Hr in *. simpl in *.
      intros Hok. destruct (IH Hok) as (evs' & url' & ->).
      exists (Mkdir (path_join target_dir name) :: sub_evs ++ evs'), url'.
      cbn [app]. by rewrite app_assoc. }
  specialize (Hloop contents).
  destruct (_ contents) as [evs ok] eqn:Hr in *. simpl in *.
  intros Hok. destruct (Hloop Hok) as (evs' & url' & ->).
  by exists (SessionGet (contents_url owner repo branch path) :: evs'), url'.
Qed.

(** [fetch_subfolder] returns [True] exactly when the first listing request
    succeeds and no file of that listing fails to download; when it returns
    [False], the last thing it did is the request that failed. *)
Theorem fetch_subfolder_result subfolder_path target_dir remote :
  let r := fetch_subfolder owner repo branch subfolder_path target_dir
                           remote in
  (r.2 = true <->
   exists contents,
     remote = Listing contents /\
     forall name url, File name url None ∉ contents) /\
  (r.2 = false -> exists evs url, r.1 = evs ++ [SessionGet url]).
Proof.
  intros r. subst r. split.
  - by rewrite fetch_subfolder_ok, first_level_ok_spec.
  - unfold fetch_subfolder.
    pose proof (fetch_contents_recursive_stops subfolder_path target_dir
                  remote) as Hstop.
    destruct (fetch_contents_recursive _ _ _ _ _ _) as [evs ok].
    simpl in *. intros Hok. destruct (Hstop Hok) as (evs' & url & ->).
    by exists (WaitForRateLimitReset :: Mkdir target_dir :: evs'), url.
Qed.

(** On a listing without subdirectories every request of the subpath
    strategy follows a throttle call of its own. *)
Theorem fetch_subfolder_flat_is_throttled subfolder_path target_dir contents :
  is_flat contents = true ->
  throttled (fetch_subfolder owner repo branch subfolder_path target_dir
                             (Listing contents)).1 = true.
Proof.
  intros Hflat. unfold fetch_subfolder.
  destruct (flat_listing_throttled owner repo branch subfolder_path
              target_dir contents false Hflat) as (evs & ok & -> & Hthr).
  done.
Qed.
End subfolder_more.

Section standalone_more.
Import github_fetcher.

Lemma append_assoc (a b c : string) : (a +:+ b) +:+ c = a +:+ b +:+ c.
Proof.
  induction a as [|x a IH]; [done|]. by rewrite !append_cons, IH.
Qed.

Lemma contains_prefix_mono pattern root name :
  py.contains pattern root = true ->
  String.prefix root name = true ->
  py.contains pattern name = true.
Proof.
  rewrite !contains_spec, prefix_spec.
  intros (a & b & ->) (t & ->). exists a, (b +:+ t).
  by rewrite !append_assoc.
Qed.




(** When an exclude pattern occurs in the name of the archive's root
    directory, every member below that directory is skipped: nothing is
    extracted, and the strategy still reports success. *)
Theorem fetch_standalone_repo_root_excluded
    (owner repo branch target_dir : string)
    (exclude_patterns : option (list string))
    (first : string) (rest : list string) (pattern : string) :
  let root_dir := default "" (head (py.split "/" first)) in
  pattern ∈ default default_exclude_patterns exclude_patterns ->
  py.contains pattern root_dir = true ->
  (forall member_name, member_name ∈ first :: rest ->
                       String.prefix root_dir member_name = true) ->
  (fetch_standalone_repo owner repo branch target_dir exclude_patterns
                         (Archive (first :: rest))).2 = true /\
  forall m target,
    TarExtract m target
      ∉ (fetch_standalone_repo owner repo branch target_dir exclude_patterns
                               (Archive (first :: rest))).1.
Proof.
  intros root_dir Hp Hc Hpre. split; [done|].
  intros m target Hin. unfold fetch_standalone_repo in Hin.
  fold root_dir in Hin. cbn [fst] in Hin.
  apply elem_of_app in Hin as [Hin|Hin].
  { repeat (apply elem_of_cons in Hin as [?|Hin]; [done|]).
    by apply elem_of_nil in Hin. }
  assert (Hnone : forall members,
    (forall member_name, member_name ∈ members ->
                         String.prefix root_dir member_name = true) ->
    extract_members root_dir target_dir
      (default default_exclude_patterns exclude_patterns) members = []).
  { induction members as [|x members IH]; intros Hx; [done|].
    cbn [extract_members]. case_decide; [apply IH; intros; apply Hx; by right|].
    assert (should_exclude (default default_exclude_patterns exclude_patterns)
                           x = true) as ->.
    { apply should_exclude_spec. exists pattern. split; [done|].
      apply (contains_prefix_mono pattern root_dir x Hc). apply Hx. by left. }
    apply IH. intros. apply Hx. by right. }
  rewrite Hnone in Hin by done. by apply elem_of_nil in Hin.
Qed.

(** The throttle sleeps only when the quota is known and fewer than ten
    requests remain (an absent count reads as 100); then it sleeps at least
    five seconds, and at least until five seconds after the reset time. *)
Theorem wait_for_rate_limit_reset_spec (rate : option rate_limit) (now : Z) :
  match wait_for_rate_limit_reset rate now with
  | Some seconds =>
      (5 <= seconds)%Z /\
      exists r, rate = Some r /\ (default 100 (remaining r) < 10)%Z /\
                (default 0 (reset r) - now + 5 <= seconds)%Z
  | None =>
      rate = None \/
      exists r, rate = Some r /\ (10 <= default 100 (remaining r))%Z
  end.
Proof.
  unfold wait_for_rate_limit_reset. destruct rate as [r|]; [|by left].
  case_decide.
  - split; [lia|]. exists r. split_and!; [done|done|lia].
  - right. exists r. split; [done|lia].
Qed.
End standalone_more.

Section dispatcher.
Import utils github_fetcher.
Variable urlparse_path : string -> string.

Lemma join_cons_nonempty sep seg more :
  seg ≠ "" -> py.join sep (seg :: more) ≠ "".
Proof.
  intros Hseg. destruct more as [|x more]; cbn [py.join]; [done|].
  destruct seg as [|a seg]; [done|]. by rewrite append_cons.
Qed.

Lemma parse_github_url_subpath url owner repo branch seg more :
  path_parts urlparse_path url
  = owner :: repo :: "tree" :: branch :: seg :: more ->
  parse_github_url urlparse_path url
  = inr (owner, repo, branch, Some (py.join "/" (seg :: more))).
Proof.
  intros Hparts. unfold parse_github_url. rewrite Hparts.
  cbn [length lookup list_lookup drop].
  case_decide; [simpl in *; lia|].
  rewrite decide_True by (split; [lia|done]).
  by rewrite decide_True by lia.
Qed.

Lemma parse_github_url_no_subpath url owner repo rest :
  path_parts urlparse_path url = owner :: repo :: rest ->
  length rest <= 2 \/ rest !! 0 ≠ Some "tree" ->
  exists branch,
    parse_github_url urlparse_path url = inr (owner, repo, branch, None).
Proof.
  intros Hparts Hrest. unfold parse_github_url. rewrite Hparts.
  destruct rest as [|a [|b [|c rest]]]; simpl; try (by eexists).
  - destruct (decide _) as [[_ Ht]|_]; by eexists.
  - destruct (decide _) as [[_ Ht]|_]; [|by eexists].
    exfalso. destruct Hrest as [Hle|Hne]; [simpl in Hle; lia|].
    by apply Hne.
Qed.

(** A URL with fewer than two path segments makes the fetcher fail without
    a single request. *)
Theorem fetch_skill_malformed_url
    (github_url repo_type target_folder : string)
    (extraction_config : option (list string)) (r : remote) :
  length (path_parts urlparse_path github_url) < 2 ->
  fetch_skill urlparse_path github_url repo_type target_folder
              extraction_config r = ([], false).
Proof.
  intros Hlen. unfold fetch_skill, parse_github_url. by case_decide.
Qed.

(** A URL without a subpath always takes the whole-repository strategy, on
    the branch that the repository reports as its default ([main] when that
    request fails), even when the URL names a branch; the request for the
    default branch comes first and is not throttled. *)
Theorem fetch_skill_without_subpath
    (github_url repo_type target_folder owner repo : string)
    (rest : list string)
    (extraction_config : option (list string)) (r : remote) :
  path_parts urlparse_path github_url = owner :: repo :: rest ->
  length rest <= 2 \/ rest !! 0 ≠ Some "tree" ->
  let branch := default "main" (default_branch r) in
  let whole :=
    fetch_standalone_repo owner repo branch target_folder
      (Some (default default_exclude_patterns extraction_config))
      (archive r branch) in
  fetch_skill urlparse_path github_url repo_type target_folder
              extraction_config r
  = (SessionGet (api_base +:+ "/repos/" +:+ owner +:+ "/" +:+ repo)
       :: whole.1, whole.2).
Proof.
  intros Hparts Hrest branch whole. subst whole branch.
  destruct (parse_github_url_no_subpath github_url owner repo rest
              Hparts Hrest) as [b Hparse].
  unfold fetch_skill. rewrite Hparse. unfold py.truthy. cbn [negb].
  unfold get_default_branch. rewrite orb_true_r.
  by destruct (fetch_standalone_repo _ _ _ _ _ _).
Qed.

(** A URL with a branch and a subpath takes the subpath strategy on that
    branch and path, without asking for the default branch, unless the
    package is configured as [standalone]: then the whole repository is
    fetched from that branch and the subpath is ignored. *)
Theorem fetch_skill_with_subpath
    (github_url repo_type target_folder owner repo branch seg : string)
    (more : list string)
    (extraction_config : option (list string)) (r : remote) :
  path_parts urlparse_path github_url
  = owner :: repo :: "tree" :: branch :: seg :: more ->
  let subfolder_path := py.join "/" (seg :: more) in
  (repo_type ≠ "standalone" ->
   fetch_skill urlparse_path github_url repo_type target_folder
               extraction_config r
   = fetch_subfolder owner repo branch subfolder_path target_folder
                     (contents r branch subfolder_path)) /\
  (repo_type = "standalone" ->
   fetch_skill urlparse_path github_url repo_type target_folder
               extraction_config r
   = fetch_standalone_repo owner repo branch target_folder
       (Some (default default_exclude_patterns extraction_config))
       (archive r branch)).
Proof.
  intros Hparts subfolder_path.
  assert (Hseg : seg ≠ "").
  { apply (path_parts_nonempty urlparse_path github_url).
    rewrite Hparts. set_solver. }
  pose proof (join_cons_nonempty "/" seg more Hseg) as Hsub.
  fold subfolder_path in Hsub.
  unfold fetch_skill.
  rewrite (parse_github_url_subpath github_url owner repo branch seg more
             Hparts).
  fold subfolder_path.
  assert (py.truthy (Some subfolder_path) = true) as ->
    by (by apply truthy_Some).
  cbn [negb orb from_option Datatypes.id]. rewrite orb_false_r. split.
  - intros Hne. rewrite bool_decide_eq_false_2 by done.
    by destruct (fetch_subfolder _ _ _ _ _ _).
  - intros ->. rewrite bool_decide_eq_true_2 by done.
    by destruct (fetch_standalone_repo _ _ _ _ _ _).
Qed.
End dispatcher.

(** ** utils.to_kebab_case *)

Section kebab.
Import utils.

Lemma all_chars_keep p s : all_chars p (keep_chars p s) = true.
Proof.
  induction s as [|a s IH]; simpl; [done|].
  destruct (p a) eqn:Hp; simpl; [by rewrite Hp|done].
Qed.

Lemma keep_chars_id p s : all_chars p s = true -> keep_chars p s = s.
Proof.
  induction s as [|a s IH]; simpl; [done|].
  intros [Hp Hs]%andb_true_iff. by rewrite Hp, IH.
Qed.

Lemma map_chars_id f p s :
  (forall c, p c = true -> f c = c) ->
  all_chars p s = true -> map_chars f s = s.
Proof.
  intros Hf. induction s as [|a s IH]; simpl; [done|].
  intros [Hp Hs]%andb_true_iff. by rewrite (Hf a Hp), IH.
Qed.

Lemma kebab_char_cases c :
  kebab_char c = true ->
  97 <= nat_of_ascii c <= 122 \/ 48 <= nat_of_ascii c <= 57 \/
  nat_of_ascii c = 45.
Proof.
  unfold kebab_char. rewrite !orb_true_iff, !bool_decide_eq_true.
  intros [[?|?]| ->]; auto.
Qed.

Lemma lower_char_kebab c : kebab_char c = true -> lower_char c = c.
Proof.
  intros Hk%kebab_char_cases. unfold lower_char. case_decide; [lia|done].
Qed.

Lemma hyphenate_char_kebab c : kebab_char c = true -> hyphenate_char c = c.
Proof.
  intros Hk%kebab_char_cases. unfold hyphenate_char.
  case_decide as H1; [subst; vm_compute in Hk; lia|].
  case_decide as H2; [subst; vm_compute in Hk; lia|done].
Qed.

Lemma collapse_first s :
  first_char (collapse_hyphens s) = first_char s.
Proof.
  induction s as [|a s IH]; [done|]. cbn [collapse_hyphens].
  case_decide as Ha; [|done]. subst a.
  destruct (collapse_hyphens s) as [|b r] eqn:Hr; [done|].
  case_decide as Hb; [|done]. by subst b.
Qed.

Lemma all_chars_collapse p s :
  all_chars p s = true -> all_chars p (collapse_hyphens s) = true.
Proof.
  induction s as [|a s IH]; [done|]. cbn [all_chars collapse_hyphens].
  intros [Hp Hs]%andb_true_iff. specialize (IH Hs).
  case_decide as Ha.
  - destruct (collapse_hyphens s) as [|b r] eqn:Hr; simpl.
    + by rewrite Hp.
    + case_decide; [done|]. simpl. by rewrite Hp.
  - simpl. by rewrite Hp.
Qed.

Lemma no_double_cons a s :
  no_double_hyphen (String a s)
  = negb (bool_decide (a = "-"%char) &&
          bool_decide (first_char s = Some "-"%char))
    && no_double_hyphen s.
Proof. reflexivity. Qed.

Lemma no_double_collapse s : no_double_hyphen (collapse_hyphens s) = true.
Proof.
  induction s as [|a s IH]; [done|]. cbn [collapse_hyphens].
  case_decide as Ha.
  - destruct (collapse_hyphens s) as [|b r] eqn:Hr; [by subst|].
    case_decide as Hb; [done|].
    rewrite no_double_cons, IH. cbn [first_char].
    rewrite (bool_decide_eq_false_2 (Some b = _)) by congruence.
    by rewrite andb_false_r.
  - rewrite no_double_cons, IH.
    rewrite (bool_decide_eq_false_2 (a = _)) by done. done.
Qed.

Lemma collapse_id s : no_double_hyphen s = true -> collapse_hyphens s = s.
Proof.
  induction s as [|a s IH]; [done|]. rewrite no_double_cons.
  cbn [collapse_hyphens].
  intros [Hhead Hs]%andb_true_iff. rewrite (IH Hs).
  destruct (decide (a = "-"%char)) as [->|Ha]; [|done].
  destruct s as [|b r]; [done|].
  destruct (decide (b = "-"%char)) as [->|Hb]; [|done].
  vm_compute in Hhead. done.
Qed.

Lemma all_chars_lstrip p s :
  all_chars p s = true -> all_chars p (lstrip_hyphens s) = true.
Proof.
  induction s as [|a s IH]; [done|]. cbn [lstrip_hyphens].
  intros H. pose proof H as [Hp Hs]%andb_true_iff.
  case_decide; [by apply IH|done].
Qed.

Lemma no_double_lstrip s :
  no_double_hyphen s = true -> no_double_hyphen (lstrip_hyphens s) = true.
Proof.
  induction s as [|a s IH]; [done|]. cbn [lstrip_hyphens].
  intros H. pose proof H as Hc. rewrite no_double_cons in Hc.
  apply andb_true_iff in Hc as [Hp Hs].
  destruct (decide (a = "-"%char)); [by apply IH|done].
Qed.

Lemma lstrip_first s : first_char (lstrip_hyphens s) ≠ Some "-"%char.
Proof.
  induction s as [|a s IH]; [done|]. cbn [lstrip_hyphens].
  case_decide; [done|]. simpl. congruence.
Qed.

Lemma lstrip_id s :
  first_char s ≠ Some "-"%char -> lstrip_hyphens s = s.
Proof.
  destruct s as [|a s]; [done|]. cbn [lstrip_hyphens first_char].
  intros Hne. case_decide; [congruence|done].
Qed.

Lemma rstrip_cons a s :
  rstrip_hyphens (String a s)
  = match rstrip_hyphens s with
    | EmptyString => if decide (a = "-"%char) then "" else String a ""
    | r => String a r
    end.
Proof. reflexivity. Qed.

Lemma rstrip_first s b r :
  rstrip_hyphens s = String b r -> first_char s = Some b.
Proof.
  destruct s as [|a s]; [done|]. rewrite rstrip_cons.
  destruct (rstrip_hyphens s); [case_decide|]; by intros [= -> _].
Qed.

Lemma all_chars_rstrip p s :
  all_chars p s = true -> all_chars p (rstrip_hyphens s) = true.
Proof.
  induction s as [|a s IH]; [done|]. rewrite rstrip_cons.
  cbn [all_chars]. intros [Hp Hs]%andb_true_iff. specialize (IH Hs).
  destruct (rstrip_hyphens s) as [|b r].
  - case_decide; simpl; [done|by rewrite Hp].
  - cbn [all_chars] in *. by rewrite Hp.
Qed.

Lemma no_double_rstrip s :
  no_double_hyphen s = true -> no_double_hyphen (rstrip_hyphens s) = true.
Proof.
  induction s as [|a s IH]; [done|]. rewrite rstrip_cons, no_double_cons.
  intros [Hhead Hs]%andb_true_iff.
  specialize (IH Hs).
  destruct (rstrip_hyphens s) as [|b r] eqn:Hr.
  - destruct (decide (a = "-"%char)); [done|]. simpl. by rewrite andb_false_r.
  - rewrite no_double_cons, IH. cbn [first_char].
    rewrite (rstrip_first s b r Hr) in Hhead. by rewrite Hhead.
Qed.

Lemma rstrip_keeps_first s :
  first_char s ≠ Some "-"%char ->
  first_char (rstrip_hyphens s) ≠ Some "-"%char.
Proof.
  destruct s as [|a s]; [done|]. rewrite rstrip_cons. cbn [first_char].
  intros Hne. destruct (rstrip_hyphens s); [case_decide|]; simpl; congruence.
Qed.

Lemma rstrip_last s : last_char (rstrip_hyphens s) ≠ Some "-"%char.
Proof.
  induction s as [|a s IH]; [done|]. rewrite rstrip_cons.
  destruct (rstrip_hyphens s) as [|b r]; [case_decide; simpl; congruence|].
  done.
Qed.

Lemma rstrip_id s : last_char s ≠ Some "-"%char -> rstrip_hyphens s = s.
Proof.
  induction s as [|a s IH]; [done|]. rewrite rstrip_cons.
  destruct s as [|b s].
  - simpl. intros Hne. case_decide; congruence.
  - intros Hne. rewrite IH by done. done.
Qed.

Lemma to_kebab_case_kebab name : is_kebab (to_kebab_case name) = true.
Proof.
  unfold is_kebab, to_kebab_case.
  set (s := collapse_hyphens _).
  assert (Hall : all_chars kebab_char s = true)
    by apply all_chars_collapse, all_chars_keep.
  assert (Hnd : no_double_hyphen s = true) by apply no_double_collapse.
  rewrite all_chars_rstrip by (by apply all_chars_lstrip).
  rewrite no_double_rstrip by (by apply no_double_lstrip).
  rewrite !bool_decide_eq_false_2;
    [done|apply rstrip_last|apply rstrip_keeps_first, lstrip_first].
Qed.

Lemma to_kebab_case_id s : is_kebab s = true -> to_kebab_case s = s.
Proof.
  unfold is_kebab. rewrite !andb_true_iff, !negb_true_iff.
  intros [[[Hall Hnd] Hfirst%bool_decide_eq_false] Hlast%bool_decide_eq_false].
  unfold to_kebab_case.
  rewrite (map_chars_id lower_char kebab_char s) by auto using lower_char_kebab.
  rewrite (map_chars_id hyphenate_char kebab_char s)
    by auto using hyphenate_char_kebab.
  by rewrite keep_chars_id, collapse_id, lstrip_id, rstrip_id.
Qed.

(** The result of [to_kebab_case] on ASCII text is in kebab case: only
    lower-case letters, digits and hyphens, no two hyphens in a row, and no
    hyphen at the start or at the end. *)
Theorem to_kebab_case_shape (name : string) :
  is_ascii name = true ->
  let out := to_kebab_case name in
  all_chars kebab_char out = true /\
  no_double_hyphen out = true /\
  first_char out ≠ Some "-"%char /\
  last_char out ≠ Some "-"%char.
Proof.
  intros _ out. pose proof (to_kebab_case_kebab name) as Hk.
  unfold is_kebab in Hk. fold out in Hk.
  rewrite !andb_true_iff, !negb_true_iff, !bool_decide_eq_false in Hk.
  tauto.
Qed.

(** [to_kebab_case] leaves a text unchanged exactly when the text is in
    kebab case, so applying it twice is the same as applying it once. *)
Theorem to_kebab_case_idempotent (name : string) :
  is_ascii name = true ->
  (to_kebab_case name = name <-> is_kebab name = true) /\
  to_kebab_case (to_kebab_case name) = to_kebab_case name.
Proof.
  intros _. split.
  - split; [|apply to_kebab_case_id].
    intros <-. apply to_kebab_case_kebab.
  - apply to_kebab_case_id, to_kebab_case_kebab.
Qed.
End kebab.

(** ** More on parse_github_url *)

Section parse_more.
Import utils.
Variable urlparse_path : string -> string.
#[local] Arguments py.join : simpl never.

Lemma split_pieces_free c s p :
  p ∈ py.split c s -> all_chars (fun a => negb (Ascii.eqb a c)) p = true.
Proof.
  revert p. induction s as [|a s IH]; intros p; cbn [py.split].
  - by intros ->%list_elem_of_singleton.
  - destruct (Ascii.eqb a c) eqn:Hac.
    + intros [->|Hp]%elem_of_cons; [done|by apply IH].
    + destruct (py.split c s) as [|q qs].
      * intros ->%list_elem_of_singleton. simpl. by rewrite Hac.
      * intros [->|Hp]%elem_of_cons.
        -- simpl. rewrite Hac. simpl. apply IH. by left.
        -- apply IH. by right.
Qed.

Lemma path_parts_good url :
  Forall (fun p => p ≠ "" /\ slash_free p = true)
         (path_parts urlparse_path url).
Proof.
  apply Forall_forall. intros p [Hne Hin]%list_elem_of_filter.
  split; [done|]. by apply (split_pieces_free "/" (urlparse_path url) p).
Qed.

Lemma last_char_append s t : t ≠ "" -> last_char (s +:+ t) = last_char t.
Proof.
  intros Ht. induction s as [|a s IH]; [done|]. rewrite append_cons.
  cbn [last_char]. destruct (s +:+ t) as [|b r] eqn:Hst; [|done].
  destruct s; [by rewrite append_nil in Hst|by rewrite append_cons in Hst].
Qed.

Lemma first_char_append s t : s ≠ "" -> first_char (s +:+ t) = first_char s.
Proof. destruct s as [|a s]; [done|]. by rewrite append_cons. Qed.

Lemma slash_free_last s : slash_free s = true -> last_char s ≠ Some "/"%char.
Proof.
  induction s as [|a s IH]; [done|]. unfold slash_free in *.
  cbn [all_chars last_char]. intros [Ha Hs]%andb_true_iff.
  destruct s as [|b r]; [|by apply IH].
  intros [= ->]. done.
Qed.

Lemma slash_free_first s :
  slash_free s = true -> first_char s ≠ Some "/"%char.
Proof.
  destruct s as [|a s]; [done|]. unfold slash_free. cbn [all_chars first_char].
  intros [Ha Hs]%andb_true_iff [= ->]. done.
Qed.

Lemma join_good_segments segs :
  segs ≠ [] ->
  Forall (fun p => p ≠ "" /\ slash_free p = true) segs ->
  py.join "/" segs ≠ "" /\
  first_char (py.join "/" segs) ≠ Some "/"%char /\
  last_char (py.join "/" segs) ≠ Some "/"%char.
Proof.
  intros Hne Hall. induction Hall as [|p segs [Hp Hfree] Hall IH]; [done|].
  destruct segs as [|q segs].
  - cbn [py.join]. split_and!;
      [done|by apply slash_free_first|by apply slash_free_last].
  - destruct IH as (I1 & _ & I3); [done|].
    change (py.join "/" (p :: q :: segs))
      with (p +:+ "/" +:+ py.join "/" (q :: segs)).
    split_and!.
    + destruct p; [done|]. by rewrite append_cons.
    + rewrite first_char_append by done. by apply slash_free_first.
    + rewrite last_char_append.
      * rewrite last_char_append by done. done.
      * by rewrite append_cons.
Qed.

(** Whatever the URL, the components that the resolver returns are well
    formed: owner, repository and branch are not empty, owner and
    repository hold no slash, and a subpath is not empty and neither starts
    nor ends with a slash. *)
Theorem parse_github_url_components
    (url owner repo branch : string) (subfolder_path : option string) :
  parse_github_url urlparse_path url
  = inr (owner, repo, branch, subfolder_path) ->
  owner ≠ "" /\ slash_free owner = true /\
  repo ≠ "" /\ slash_free repo = true /\
  branch ≠ "" /\
  match subfolder_path with
  | Some path =>
      path ≠ "" /\ first_char path ≠ Some "/"%char /\
      last_char path ≠ Some "/"%char
  | None => True
  end.
Proof.
  unfold parse_github_url.
  pose proof (path_parts_good url) as Hgood.
  destruct (path_parts urlparse_path url) as [|o [|r rest]];
    [done|done|].
  apply Forall_cons in Hgood as [[Ho Hof] Hgood].
  apply Forall_cons in Hgood as [[Hr Hrf] Hgood].
  destruct (decide (length (o :: r :: rest) < 2)); [done|].
  destruct rest as [|marker [|b [|seg more]]]; simpl.
  - intros Heq. simplify_eq. split_and!; done.
  - try destruct (decide (_ /\ _)); intros Heq; simplify_eq; split_and!; done.
  - apply Forall_cons in Hgood as [_ Hgood].
    apply Forall_cons in Hgood as [[Hb _] _].
    try destruct (decide (_ /\ _)); intros Heq; simplify_eq; split_and!; done.
  - apply Forall_cons in Hgood as [_ Hgood].
    apply Forall_cons in Hgood as [[Hb _] Hgood].
    try destruct (decide (_ /\ _)); intros Heq; simplify_eq;
      split_and!; try done.
    all: by apply (join_good_segments (seg :: more)).
Qed.
End parse_more.

(** ** The further properties at concrete inputs *)

Section more_concrete.
Import utils skill_processor marketplace_updater github_fetcher.
Import fetch_external_skills.

Lemma merge_plugins_absorbs_witness :
  merge_plugins
    (merge_plugins [samples.pdf_old; samples.pdf_new] [samples.pdf_incoming])
    [samples.pdf_incoming; samples.pdf_old]
  = merge_plugins [samples.pdf_old; samples.pdf_new] [samples.pdf_incoming].
Proof.
  apply (merge_plugins_absorbs [samples.pdf_old; samples.pdf_new]
           [samples.pdf_incoming] [samples.pdf_incoming; samples.pdf_old]).
  intros q Hq. apply elem_of_cons in Hq as [->|Hq].
  - right. left.
  - apply list_elem_of_singleton in Hq as ->. left. left.
Defined.



Lemma update_twice_witness :
  let r := update_marketplace_with_skills more_samples.files_with_pdf
             [samples.skill_a] more_samples.batch_with_epub in
  update_marketplace_with_skills r.1 [samples.skill_a]
                                 more_samples.batch_with_epub
  = (RegistryFiles (marketplace_json r.1) (marketplace_json r.1), true).
Proof.
  apply (update_twice more_samples.files_with_pdf [samples.skill_a]
           more_samples.batch_with_epub).
  reflexivity.
Defined.

Lemma get_plugin_by_name_after_update_witness :
  get_plugin_by_name
    (update_marketplace_with_skills more_samples.files_with_pdf
       [samples.skill_a] more_samples.batch_with_epub).1 "pdf-tools"
  = if decide ("pdf-tools" = "") then None
    else merge_lookup "pdf-tools"
           (default [] (mp_plugins more_samples.doc_with_pdf))
           (new_entries [samples.skill_a] more_samples.batch_with_epub).
Proof.
  apply (get_plugin_by_name_after_update more_samples.files_with_pdf
           more_samples.doc_with_pdf [samples.skill_a]
           more_samples.batch_with_epub "pdf-tools").
  - reflexivity.
  - reflexivity.
Defined.

Lemma list_marketplace_plugins_after_update_witness :
  NoDup (list_marketplace_plugins
           (update_marketplace_with_skills more_samples.files_with_pdf
              [samples.skill_a] more_samples.batch_with_epub).1).
Proof.
  apply (list_marketplace_plugins_after_update more_samples.files_with_pdf
           [samples.skill_a] more_samples.batch_with_epub).
  reflexivity.
Defined.

Lemma validate_skill_clean_pass_witness :
  let r := validate_skill samples.load "./brainstorming"
             (Some (Directory (Some samples.manifest))) in
  let header := parse_skill_frontmatter samples.load samples.manifest in
  (warnings r = [] <->
   py.truthy (header !! "name") = true /\
   py.truthy (header !! "description") = true /\
   50 <= String.length samples.manifest) /\
  length (warnings r) <= 3.
Proof.
  apply (validate_skill_clean_pass samples.load "./brainstorming"
           samples.manifest).
  discriminate.
Defined.

Lemma fetch_all_skills_batch_witness :
  meta_name (Normalized "epub" "Structured idea generation" "documents")
  = "epub" /\
  exists s, s ∈ [samples.skill_a; samples.skill_b] /\ id s = "epub" /\
    exists txt,
      base_dir (fetch_all_skills samples.load samples.github samples.mkdtemp
                  false false None [samples.skill_a; samples.skill_b]
                  samples.state_with_a).1 !! target_folder s
      = Some (Directory (Some txt)) /\ txt ≠ "".
Proof.
  apply (fetch_all_skills_batch samples.load samples.github samples.mkdtemp
           false false None [samples.skill_a; samples.skill_b]
           samples.state_with_a "epub").
  vm_compute. reflexivity.
Defined.

Lemma run_stops_at_conflict_witness :
  run samples.load samples.github samples.mkdtemp false false
      (Some (Config None [samples.skill_a; samples.skill_b])) true
      (Some ["epub"]) samples.state_with_a
  = (samples.state_with_a, 1).
Proof.
  apply (run_stops_at_conflict samples.load samples.github samples.mkdtemp
           false false (Config None [samples.skill_a; samples.skill_b])
           (Some ["epub"]) samples.state_with_a samples.skill_a).
  - reflexivity.
  - left.
  - change ("epub" ∈ ["epub"]). left.
  - vm_compute. eauto.
Defined.

Lemma run_dry_run_is_pure_witness :
  let r := run samples.load samples.github samples.mkdtemp true true
               (Some (Config None [samples.skill_a; samples.skill_b])) true
               None samples.state_with_a in
  base_dir r.1 = base_dir samples.state_with_a /\
  registry r.1 = registry samples.state_with_a.
Proof.
  apply (run_dry_run_is_pure samples.load samples.github samples.mkdtemp
           true true).
  reflexivity.
Defined.

Lemma fetch_subfolder_flat_is_throttled_witness :
  throttled (fetch_subfolder "obra" "superpowers" "main" "skills/x" "/tmp/x"
               (Listing more_samples.flat_listing)).1 = true.
Proof.
  apply (fetch_subfolder_flat_is_throttled "obra" "superpowers" "main"
           "skills/x" "/tmp/x" more_samples.flat_listing).
  reflexivity.
Defined.

Lemma fetch_standalone_repo_root_excluded_witness :
  (fetch_standalone_repo "user" "user.github.io" "main" "/tmp/pages" None
     (Archive more_samples.pages_archive)).2 = true /\
  forall m target,
    TarExtract m target
      ∉ (fetch_standalone_repo "user" "user.github.io" "main" "/tmp/pages"
           None (Archive more_samples.pages_archive)).1.
Proof.
  apply (fetch_standalone_repo_root_excluded "user" "user.github.io" "main"
           "/tmp/pages" None "user.github.io-main"
           ["user.github.io-main/index.md";
            "user.github.io-main/docs/guide.md"] ".git").
  - left.
  - reflexivity.
  - intros member_name Hin.
    repeat (apply elem_of_cons in Hin as [->|Hin]; [reflexivity|]).
    by apply elem_of_nil in Hin.
Defined.

Lemma fetch_skill_without_subpath_witness :
  let branch := default "main" (default_branch more_samples.repository) in
  let whole :=
    fetch_standalone_repo "smerchek" "claude-epub-skill" branch "/tmp/epub"
      (Some (default default_exclude_patterns None))
      (archive more_samples.repository branch) in
  github_fetcher.fetch_skill simple_url_path more_samples.epub_url
    "standalone" "/tmp/epub" None more_samples.repository
  = (SessionGet (api_base +:+ "/repos/" +:+ "smerchek" +:+ "/" +:+
                 "claude-epub-skill") :: whole.1, whole.2).
Proof.
  apply (fetch_skill_without_subpath simple_url_path more_samples.epub_url
           "standalone" "/tmp/epub" "smerchek" "claude-epub-skill" []).
  - reflexivity.
  - left. simpl. lia.
Defined.

Lemma fetch_skill_with_subpath_witness :
  github_fetcher.fetch_skill simple_url_path samples.url_with_subpath
    "multi_skill" "/tmp/x" None more_samples.repository
  = fetch_subfolder "obra" "superpowers" "main" "skills/brainstorming"
      "/tmp/x"
      (contents more_samples.repository "main" "skills/brainstorming").
Proof.
  apply (fetch_skill_with_subpath simple_url_path samples.url_with_subpath
           "multi_skill" "/tmp/x" "obra" "superpowers" "main" "skills"
           ["brainstorming"] None more_samples.repository).
  - reflexivity.
  - discriminate.
Defined.

Lemma to_kebab_case_shape_witness :
  let out := to_kebab_case "Markdown to EPUB Converter" in
  all_chars kebab_char out = true /\
  no_double_hyphen out = true /\
  first_char out ≠ Some "-"%char /\
  last_char out ≠ Some "-"%char.
Proof.
  apply (to_kebab_case_shape "Markdown to EPUB Converter"). reflexivity.
Defined.

Lemma to_kebab_case_idempotent_witness :
  to_kebab_case (to_kebab_case "D3.js Visualization")
  = to_kebab_case "D3.js Visualization".
Proof.
  apply (to_kebab_case_idempotent "D3.js Visualization"). reflexivity.
Defined.

Lemma parse_github_url_components_witness :
  "obra" ≠ "" /\ slash_free "obra" = true /\
  "superpowers" ≠ "" /\ slash_free "superpowers" = true /\
  "main" ≠ "" /\
  "skills/brainstorming" ≠ "" /\
  first_char "skills/brainstorming" ≠ Some "/"%char /\
  last_char "skills/brainstorming" ≠ Some "/"%char.
Proof.
  apply (parse_github_url_components simple_url_path
           samples.url_with_subpath "obra" "superpowers" "main"
           (Some "skills/brainstorming")).
  reflexivity.
Defined.
End more_concrete.

Section run_selection.
Import skill_processor marketplace_updater fetch_external_skills.

(** With a list of ids, [run] works on the configured packages with those
    ids only: the existing folder of a package that is not selected is no
    conflict. *)
Example run_selects_by_id :
  let r := run samples.load samples.github samples.mkdtemp false false
               (Some (Config None [samples.skill_a; samples.skill_b])) true
               (Some ["brainstorming"]) samples.state_with_a in
  r.2 = 0 /\ run_stats r.1 = Stats 1 1 0 0 [] /\
  is_Some (base_dir r.1 !! "brainstorming").
Proof. vm_compute. split_and!; eauto. Qed.

(** Ids that match no configured package make [run] stop with exit code 1
    before anything is fetched. *)
Lemma run_unknown_ids frontmatter_load github mkdtemp force dry_run
    config (i : string) (ids : list string) st :
  (forall s, s ∈ skills config -> id s ∉ i :: ids) ->
  run frontmatter_load github mkdtemp force dry_run
      (Some config) true (Some (i :: ids)) st = (st, 1).
Proof.
  intros Hnone. unfold run. cbn [negb].
  assert (filter (fun s => id s ∈ i :: ids) (skills config) = []) as ->; [|done].
  induction (skills config) as [|s l IH]; [done|].
  rewrite filter_cons, decide_False by (apply Hnone; by left).
  apply IH. intros s' Hs'. apply Hnone. by right.
Qed.
End run_selection.
